(** * LUNA USB2 control-request gateware: SETUP decoder and request handler

    A shallow embedding of [luna/gateware/usb/usb2/request.py].

    The source describes two synchronous circuits in nMigen.  Each circuit is
    embedded the way its [elaborate] method reads:

    - a signal of width [w] is a [Z] (or a [bool] for width 1);
    - the body of [elaborate] is a sequence of statements run on a module
      under construction; a statement added to [m.d.usb] sets the value a
      register takes at the next clock edge, a statement added to [m.d.comb]
      drives a wire during the current tick, [m.next] sets the next FSM state,
      and of two statements driving the same signal the later one wins;
    - registers that no active statement drives keep their value, wires that
      no active statement drives carry their reset value 0;
    - one clock tick of the [usb] domain is one call of [tick];
    - the token detector, the data-packet deserializer and the interpacket
      timer are circuits of [.packet]; the decoder only reads their interface
      signals, which are therefore inputs sampled once per tick. *)

From Stdlib Require Import ZArith List Bool Lia String.
Import ListNotations.
Local Open Scope Z_scope.

(** ** Signals *)

(** Assignment to a signal of width [w] keeps the low [w] bits. *)
Definition trunc (w : Z) (v : Z) : Z := Z.land v (Z.ones w).

(** [Cat(lo, hi)] where [lo] is a signal of width [w]. *)
Definition Cat (w : Z) (lo hi : Z) : Z := Z.lor lo (Z.shiftl hi w).

(** The bit slice [v[lo : lo + w]]. *)
Definition slice (lo w : Z) (v : Z) : Z := trunc w (Z.shiftr v lo).

(** ** Link speed *)

Module USBSpeed.
(** Modelled from the spec: the enumeration [USBSpeed] is imported from the
    package's [__init__], which is not part of the sources at hand; the
    values are those the decoder's docstring and the interface table give:
    0 for high, 1 for full, 2 for low. *)
Definition HIGH : Z := 0.
Definition FULL : Z := 1.
Definition LOW  : Z := 2.
End USBSpeed.

(** ** The SETUP packet record *)

Record SetupPacket : Type := mkSetupPacket {
received      : bool;
is_in_request : bool;
type          : Z;   (* 2 bits  *)
recipient     : Z;   (* 5 bits  *)
request       : Z;   (* 8 bits  *)
value         : Z;   (* 16 bits *)
index         : Z;   (* 16 bits *)
length        : Z    (* 16 bits *)
}.

(** The seven decoded fields, without the [received] strobe. *)
Definition fields (p : SetupPacket) : bool * Z * Z * Z * Z * Z * Z :=
(is_in_request p, type p, recipient p, request p, value p, index p, length p).

Module SetupDecoder.

Inductive fsm_state : Type := IDLE | READ_DATA | INTERPACKET_DELAY.

Definition SETUP_PID : Z := 13.  (* 0b1101 *)

(** Registers of the decoder: the FSM state and the packet record. *)
Record regs : Type := mkRegs {
  fsm    : fsm_state;
  packet : SetupPacket
}.

(** What the decoder samples during one tick: the token detector's
    interface, the data deserializer's outputs, the interpacket timer's
    [tx_allowed] and the link speed. *)
Record inputs : Type := mkInputs {
  tokenizer_pid       : Z;        (* 4 bits *)
  tokenizer_new_token : bool;
  data_new_packet     : bool;
  data_length         : Z;
  data_packet         : list Z;   (* array of 8 bytes *)
  timer_tx_allowed    : bool;
  speed               : Z         (* 2 bits *)
}.

(** Wires the decoder drives during a tick. *)
Record wires : Type := mkWires {
  ack         : bool;
  timer_start : bool
}.

(** The module under construction: next-edge register values and the wires
    of the current tick. *)
Record module : Type := mkModule {
  next     : fsm_state;
  next_pkt : SetupPacket;
  comb     : wires
}.

(** Before any statement: registers hold, wires are at reset. *)
Definition new_module (r : regs) : module :=
  mkModule (fsm r) (packet r) (mkWires false false).

Definition set_next (s : fsm_state) (m : module) : module :=
  mkModule s (next_pkt m) (comb m).

Definition set_ack (b : bool) (m : module) : module :=
  mkModule (next m) (next_pkt m) (mkWires b (timer_start (comb m))).

Definition set_timer_start (b : bool) (m : module) : module :=
  mkModule (next m) (next_pkt m) (mkWires (ack (comb m)) b).

Definition set_received (b : bool) (m : module) : module :=
  let p := next_pkt m in
  mkModule (next m)
    (mkSetupPacket b (is_in_request p) (type p) (recipient p)
                   (request p) (value p) (index p) (length p))
    (comb m).

(** [data_handler.packet[i]] *)
Definition byte (i : inputs) (k : nat) : Z := nth k (data_packet i) 0.

(** The five field assignments of the decode branch.  The first one drives
    [Cat(recipient, type, is_in_request)] from byte 0, so each of the three
    signals takes its slice of that byte. *)
Definition parse_setup_data (i : inputs) (m : module) : module :=
  let p := next_pkt m in
  let request_type := byte i 0 in
  mkModule (next m)
    (mkSetupPacket (received p)
       (Z.testbit request_type 7)
       (slice 5 2 request_type)
       (slice 0 5 request_type)
       (trunc 8 (byte i 1))
       (trunc 16 (Cat 8 (byte i 2) (byte i 3)))
       (trunc 16 (Cat 8 (byte i 4) (byte i 5)))
       (trunc 16 (Cat 8 (byte i 6) (byte i 7))))
    (comb m).

Definition elaborate (r : regs) (i : inputs) : module :=
  let m := new_module r in
  (* timer.start follows data_handler.new_packet *)
  let m := set_timer_start (data_new_packet i) m in
  (* keep our output signals de-asserted unless specified *)
  let m := set_received false m in
  match fsm r with
  | IDLE =>
      let pid_matches := tokenizer_pid i =? SETUP_PID in
      if pid_matches && tokenizer_new_token i
      then set_next READ_DATA m
      else m
  | READ_DATA =>
      let m := if tokenizer_new_token i then set_next IDLE m else m in
      if data_new_packet i then
        if data_length i =? 8 then
          let m := parse_setup_data i m in
          let m := set_received true m in
          if speed i =? USBSpeed.HIGH
          then set_next IDLE (set_ack true m)
          else set_next INTERPACKET_DELAY m
        else set_next IDLE m
      else m
  | INTERPACKET_DELAY =>
      if timer_tx_allowed i
      then set_next IDLE (set_ack true m)
      else m
  end.

(** One clock edge: the registers after the tick. *)
Definition tick (r : regs) (i : inputs) : regs :=
  let m := elaborate r i in mkRegs (next m) (next_pkt m).

(** The wires during the tick. *)
Definition outputs (r : regs) (i : inputs) : wires := comb (elaborate r i).

(** Power-on state: the FSM starts in its first state, registers at 0. *)
Definition reset : regs :=
  mkRegs IDLE (mkSetupPacket false false 0 0 0 0 0 0).

(** The registers after a whole input sequence, one element per tick. *)
Definition run (r : regs) (ins : list inputs) : regs := fold_left tick ins r.

(** A data packet of exactly eight bytes completes while the decoder
    awaits the payload. *)
Definition decodes (r : regs) (i : inputs) : bool :=
  match fsm r with
  | READ_DATA => data_new_packet i && (data_length i =? 8)
  | _ => false
  end.

Definition is_byte (b : Z) : Prop := 0 <= b < 256.

(** The [ack] wire during each tick of an input sequence. *)
Fixpoint ack_trace (r : regs) (ins : list inputs) : list bool :=
  match ins with
  | [] => []
  | i :: ins' => ack (outputs r i) :: ack_trace (tick r i) ins'
  end.

(** No tick of the input sequence completes a decode. *)
Fixpoint decode_free (r : regs) (ins : list inputs) : bool :=
  match ins with
  | [] => true
  | i :: ins' => negb (decodes r i) && decode_free (tick r i) ins'
  end.

(** The same tick with other values on the token detector's interface. *)
Definition with_token (pid : Z) (new_token : bool) (i : inputs) : inputs :=
  mkInputs pid new_token (data_new_packet i) (data_length i) (data_packet i)
           (timer_tx_allowed i) (speed i).

(** The link runs at full or at low speed during the tick. *)
Definition full_or_low (i : inputs) : Prop :=
  speed i = USBSpeed.FULL \/ speed i = USBSpeed.LOW.

(** The timer keeps [tx_allowed] low during the tick. *)
Definition tx_held (i : inputs) : Prop := timer_tx_allowed i = false.

End SetupDecoder.

(** ** The request handler *)

Module StandardRequestHandler.

Inductive fsm_state : Type := IDLE | UNHANDLED.

(** What the handler samples from its [RequestHandlerInterface] during one
    tick: the [received] strobe of the setup record and the two phase
    strobes. *)
Record inputs : Type := mkInputs {
  setup_received   : bool;
  data_requested   : bool;
  status_requested : bool
}.

(** The module under construction: the next FSM state and the one wire the
    handler drives, [handshake.stall]. *)
Record module : Type := mkModule {
  next  : fsm_state;
  stall : bool
}.

Definition new_module (s : fsm_state) : module := mkModule s false.

Definition set_next (s : fsm_state) (m : module) : module :=
  mkModule s (stall m).

Definition set_stall (b : bool) (m : module) : module :=
  mkModule (next m) b.

Definition elaborate (s : fsm_state) (i : inputs) : module :=
  let m := new_module s in
  match s with
  | IDLE =>
      if setup_received i then set_next UNHANDLED m else m
  | UNHANDLED =>
      if data_requested i || status_requested i
      then set_next IDLE (set_stall true m)
      else m
  end.

Definition tick (s : fsm_state) (i : inputs) : fsm_state :=
  next (elaborate s i).

Definition reset : fsm_state := IDLE.

Definition run (s : fsm_state) (ins : list inputs) : fsm_state :=
  fold_left tick ins s.

(** The [stall] wire during each tick of an input sequence. *)
Fixpoint stall_trace (s : fsm_state) (ins : list inputs) : list bool :=
  match ins with
  | [] => []
  | i :: ins' => stall (elaborate s i) :: stall_trace (tick s i) ins'
  end.

(** Neither phase strobe pulses during the tick. *)
Definition no_strobe (i : inputs) : Prop :=
  data_requested i || status_requested i = false.

End StandardRequestHandler.

(** ** Reference transactions

    The stimuli of the decoder's test bench, seen at the decoder's inputs:
    a token pulse, a completed data packet, a timer pulse and a tick on which
    nothing happens. *)

Module Scenario.
Import SetupDecoder.

Definition no_bytes : list Z := [0; 0; 0; 0; 0; 0; 0; 0].

Definition quiet (spd : Z) : inputs :=
  mkInputs 0 false false 0 no_bytes false spd.

Definition token (pid : Z) (spd : Z) : inputs :=
  mkInputs pid true false 0 no_bytes false spd.

Definition data (bytes : list Z) (spd : Z) : inputs :=
  mkInputs 0 false true (Z.of_nat (List.length bytes)) bytes false spd.

Definition tx_allowed (spd : Z) : inputs :=
  mkInputs 0 false false 0 no_bytes true spd.

(** A token pulse and a completed data packet on the same tick. *)
Definition token_and_data (pid : Z) (bytes : list Z) (spd : Z) : inputs :=
  mkInputs pid true true (Z.of_nat (List.length bytes)) bytes false spd.

(** The payload of [provide_reference_setup_transaction]: an OUT vendor
    request to an endpoint, request 12, value 0xABCD, index 0x0123,
    length 0x5678. *)
Definition reference_payload : list Z := [66; 12; 205; 171; 35; 1; 120; 86].

(** The payload of [test_short_setup_packet], as the deserializer delivers
    it: fewer than eight bytes. *)
Definition short_payload : list Z := [35; 69; 103; 137].

(** The decoder right after a SETUP token. *)
Definition awaiting_data : regs := tick reset (token SETUP_PID USBSpeed.HIGH).

(** The decoder right after the reference payload at full speed. *)
Definition delaying : regs :=
  tick awaiting_data (data reference_payload USBSpeed.FULL).

End Scenario.

(** ** Whole transactions at the decoder *)

Module SetupDecoderTraces.
Import SetupDecoder.

(** The condition of the [IDLE] state: a token pulse carrying the SETUP
    PID. *)
Definition setup_token (i : inputs) : bool :=
  (tokenizer_pid i =? SETUP_PID) && tokenizer_new_token i.

(** Neither the token detector nor the deserializer pulses. *)
Definition silent (i : inputs) : bool :=
  negb (tokenizer_new_token i) && negb (data_new_packet i).

(** The packet record with its [received] strobe back at 0, as the default
    assignment of every tick leaves it. *)
Definition deasserted (p : SetupPacket) : SetupPacket :=
  mkSetupPacket false (is_in_request p) (type p) (recipient p)
                (request p) (value p) (index p) (length p).

(** Every field fits the width its signal is declared with. *)
Definition within_widths (p : SetupPacket) : Prop :=
  0 <= type p < 4 /\
  0 <= recipient p < 32 /\
  0 <= request p < 256 /\
  0 <= value p < 65536 /\
  0 <= index p < 65536 /\
  0 <= length p < 65536.

(** Number of ticks of the input sequence that complete a decode. *)
Fixpoint count_decodes (r : regs) (ins : list inputs) : nat :=
  match ins with
  | [] => O
  | i :: ins' =>
      ((if decodes r i then 1 else 0) + count_decodes (tick r i) ins')%nat
  end.

(** Number of ticks of the input sequence on which [ack] is driven. *)
Fixpoint count_acks (r : regs) (ins : list inputs) : nat :=
  match ins with
  | [] => O
  | i :: ins' =>
      ((if ack (outputs r i) then 1 else 0) + count_acks (tick r i) ins')%nat
  end.

(** The same tick with the timer's [tx_allowed] held low. *)
Definition without_timer (i : inputs) : inputs :=
  mkInputs (tokenizer_pid i) (tokenizer_new_token i) (data_new_packet i)
           (data_length i) (data_packet i) false (speed i).

(** The [received] register after each tick of an input sequence: what a
    reader of the packet record sees on the following tick. *)
Fixpoint received_trace (r : regs) (ins : list inputs) : list bool :=
  match ins with
  | [] => []
  | i :: ins' => received (packet (tick r i)) :: received_trace (tick r i) ins'
  end.

(** An acknowledgment is owed: a payload was decoded and [ack] has not been
    driven for it yet. *)
Definition ack_owed (r : regs) : nat :=
  match fsm r with INTERPACKET_DELAY => 1%nat | _ => O end.

End SetupDecoderTraces.

(** ** Whole transactions at the request handler *)

Module StandardRequestHandlerTraces.
Import StandardRequestHandler.

(** Number of ticks on which [setup.received] is high. *)
Definition count_received (ins : list inputs) : nat :=
  List.length (filter setup_received ins).

(** Number of ticks of the input sequence on which [stall] is driven. *)
Definition count_stalls (s : fsm_state) (ins : list inputs) : nat :=
  List.length (filter (fun b : bool => b) (stall_trace s ins)).

(** A request waits for its stall. *)
Definition stall_owed (s : fsm_state) : nat :=
  match s with UNHANDLED => 1%nat | IDLE => O end.

(** A phase strobe pulses during the tick. *)
Definition strobe (i : inputs) : bool :=
  data_requested i || status_requested i.

End StandardRequestHandlerTraces.

(** ** The test bench helpers

    [luna/gateware/test/utils.py].  A simulation process is a generator; each
    [yield] hands the simulator either an assignment to a signal or, when
    bare, the request to wait for the next clock edge.  A process that reads
    no signal is the list of what it yields; [wait_until] reads its strobe
    before every wait and is a function of the values it reads. *)

Module TestUtils.
Import String.

Inductive command : Type :=
| Assign (signal : string) (value : Z)   (* yield signal.eq(value) *)
| Tick.                                  (* yield *)

Definition pulse (signal : string) (step_after : bool) : list command :=
  [Assign signal 1; Tick; Assign signal 0]
    ++ (if step_after then [Tick] else []).

(** [range(cycles)] is empty for a count that is not positive. *)
Definition advance_cycles (cycles : Z) : list command :=
  repeat Tick (Z.to_nat cycles).

(** The simulator's side: signal values, changed by assignments and seen by
    the clocked logic at every edge the process waits for. *)
Definition signals : Type := string -> Z.

Definition assign (signal : string) (v : Z) (st : signals) : signals :=
  fun s => if String.eqb signal s then v else st s.

(** The signal values at each clock edge a process waits for. *)
Fixpoint at_edges (process : list command) (st : signals) : list signals :=
  match process with
  | [] => []
  | Assign signal v :: rest => at_edges rest (assign signal v st)
  | Tick :: rest => st :: at_edges rest st
  end.

(** The signal values a process leaves behind. *)
Fixpoint after (process : list command) (st : signals) : signals :=
  match process with
  | [] => st
  | Assign signal v :: rest => after rest (assign signal v st)
  | Tick :: rest => after rest st
  end.

(** How a call of [wait_until] ends.  [Waiting] stands for a call that is
    still in its loop when the model stops following it. *)
Inductive outcome : Type :=
| Returned (cycles_passed : nat)
| RuntimeError (cycles_passed : nat)
| Waiting.

(** [timeout and cycles_passed > timeout]: [None] and 0 never expire. *)
Definition expired (timeout : option Z) (cycles_passed : nat) : bool :=
  match timeout with
  | None => false
  | Some t => negb (t =? 0) && (Z.of_nat cycles_passed >? t)
  end.

(** The loop of [wait_until]; [strobe n] is the value the strobe has after
    [n] clock cycles, and [fuel] bounds the number of iterations followed. *)
Fixpoint wait_until_loop (strobe : nat -> bool) (timeout : option Z)
  (cycles_passed : nat) (fuel : nat) : outcome :=
  match fuel with
  | O => Waiting
  | S fuel' =>
      if strobe cycles_passed then Returned cycles_passed
      else
        let cycles_passed := S cycles_passed in
        if expired timeout cycles_passed
        then RuntimeError cycles_passed
        else wait_until_loop strobe timeout cycles_passed fuel'
  end.

Definition wait_until (strobe : nat -> bool) (timeout : option Z)
  (fuel : nat) : outcome :=
  wait_until_loop strobe timeout 0 fuel.

(** The strobe stays low during the first [n] reads. *)
Definition low_before (strobe : nat -> bool) (n : nat) : Prop :=
  forall k, (k < n)%nat -> strobe k = false.

Definition get_vcd_name (class_name : string) : string :=
  ("test_" ++ class_name)%string.

(** What [simulate] asks of the simulator. *)
Inductive simulation : Type :=
| Run
| RunWritingVcd (vcd_file gtkw_file : string).

(** A string is true when it is not empty. *)
Definition nonempty (s : string) : bool :=
  match s with EmptyString => false | String _ _ => true end.

(** The text of an optional suffix; an absent one has none. *)
Definition suffix_text (vcd_suffix : option string) : string :=
  match vcd_suffix with Some s => s | None => EmptyString end.

Definition is_true_opt (v : option string) : bool :=
  match v with None => false | Some s => nonempty s end.

(** [GENERATE_VCDS] is the value of the environment variable, [None] when it
    is not set. *)
Definition simulate (GENERATE_VCDS : option string) (class_name : string)
  (vcd_suffix : option string) : simulation :=
  if is_true_opt GENERATE_VCDS then
    let vcd_name := get_vcd_name class_name in
    let vcd_name :=
      if is_true_opt vcd_suffix
      then (vcd_name ++ "_" ++ match vcd_suffix with
                               | Some s => s
                               | None => EmptyString
                               end)%string
      else vcd_name in
    RunWritingVcd (vcd_name ++ ".vcd")%string (vcd_name ++ ".gtkw")%string
  else Run.

End TestUtils.

(** * Properties of the SETUP decoder *)

Module SetupDecoderFacts.
Import SetupDecoder.

(** ** Bit-level facts about the signal operations *)

Lemma trunc_mod (w v : Z) : 0 <= w -> trunc w v = v mod 2 ^ w.
Proof. intros Hw. unfold trunc. now apply Z.land_ones. Qed.

Lemma trunc_small (w v : Z) : 0 <= w -> 0 <= v < 2 ^ w -> trunc w v = v.
Proof. intros Hw Hv. rewrite trunc_mod by assumption. now apply Z.mod_small. Qed.

Lemma slice_div_mod (lo w v : Z) :
  0 <= lo -> 0 <= w -> slice lo w v = (v / 2 ^ lo) mod 2 ^ w.
Proof.
  intros Hlo Hw. unfold slice.
  rewrite trunc_mod by assumption. now rewrite Z.shiftr_div_pow2.
Qed.

(** Concatenating below a shifted value touches disjoint bits, so it adds. *)
Lemma Cat_add (w lo hi : Z) :
  0 <= w -> 0 <= lo < 2 ^ w -> Cat w lo hi = lo + 2 ^ w * hi.
Proof.
  intros Hw Hlo. unfold Cat.
  assert (Hdisj : Z.land lo (Z.shiftl hi w) = 0).
  { apply Z.bits_inj'. intros n Hn.
    rewrite Z.land_spec, Z.bits_0.
    destruct (Z.lt_ge_cases n w) as [Hlt | Hge].
    - rewrite Z.shiftl_spec_low by assumption. apply andb_false_r.
    - replace (Z.testbit lo n) with false; [reflexivity|].
      symmetry. destruct (Z.eq_dec lo 0) as [-> | Hnz].
      + apply Z.bits_0.
      + apply Z.bits_above_log2; [lia|].
        apply Z.lt_le_trans with w; [|assumption].
        apply Z.log2_lt_pow2; lia. }
  rewrite <- Z.lxor_lor by assumption.
  rewrite <- Z.add_nocarry_lxor by assumption.
  rewrite Z.shiftl_mul_pow2 by assumption. lia.
Qed.

Lemma Cat_bytes (lo hi : Z) :
  is_byte lo -> is_byte hi -> trunc 16 (Cat 8 lo hi) = lo + 256 * hi.
Proof.
  unfold is_byte. intros Hlo Hhi.
  rewrite Cat_add; [| lia | change (2 ^ 8) with 256; lia].
  change (2 ^ 8) with 256.
  apply trunc_small; [lia | change (2 ^ 16) with 65536; lia].
Qed.

(** ** One tick *)

(** Unfolds one tick and splits on the state and on every sampled signal the
    source branches on. *)
Ltac tick_cases r i :=
  unfold tick, outputs, elaborate, decodes in *;
  destruct r as [s p]; destruct s; cbn [fsm packet] in *;
  try discriminate;
  destruct (tokenizer_pid i =? SETUP_PID);
  destruct (tokenizer_new_token i);
  destruct (data_new_packet i);
  destruct (data_length i =? 8) eqn:?;
  destruct (speed i =? USBSpeed.HIGH) eqn:?;
  destruct (timer_tx_allowed i);
  cbn in *; try discriminate; try congruence; auto.

Lemma received_next (r : regs) (i : inputs) :
  received (packet (tick r i)) = decodes r i.
Proof. tick_cases r i. Qed.

Lemma fields_hold (r : regs) (i : inputs) :
  decodes r i = false -> fields (packet (tick r i)) = fields (packet r).
Proof. intros H. tick_cases r i. Qed.

Lemma decodes_leaves_READ_DATA (r : regs) (i : inputs) :
  decodes r i = true -> fsm (tick r i) <> READ_DATA.
Proof. intros H. tick_cases r i. Qed.

Lemma decodes_in_READ_DATA (r : regs) (i : inputs) :
  decodes r i = true -> fsm r = READ_DATA.
Proof. unfold decodes. destruct (fsm r); congruence. Qed.

Lemma ack_cases (r : regs) (i : inputs) :
  ack (outputs r i) =
  (decodes r i && (speed i =? USBSpeed.HIGH))
  || (match fsm r with INTERPACKET_DELAY => timer_tx_allowed i | _ => false end).
Proof. tick_cases r i. Qed.

Lemma delay_entered (r : regs) (i : inputs) :
  fsm (tick r i) = INTERPACKET_DELAY ->
  (decodes r i = true /\ (speed i =? USBSpeed.HIGH) = false)
  \/ (fsm r = INTERPACKET_DELAY /\ timer_tx_allowed i = false).
Proof. intros H. tick_cases r i. Qed.

(** ** Runs *)

Lemma run_app (r : regs) (xs ys : list inputs) :
  run r (xs ++ ys) = run (run r xs) ys.
Proof. unfold run. apply fold_left_app. Qed.

Lemma run_snoc (r : regs) (xs : list inputs) (i : inputs) :
  run r (xs ++ [i]) = tick (run r xs) i.
Proof. rewrite run_app. reflexivity. Qed.

(** ** Field decode *)

(** C1: whenever the decoder, awaiting the payload, receives a data packet of
    exactly eight bytes, the packet record after the tick holds the payload
    reinterpreted per the fixed layout: byte 0 packs [recipient] in bits 0-4,
    [type] in bits 5-6 and [is_in_request] in bit 7; [request] is byte 1;
    [value], [index] and [length] are bytes 2-3, 4-5 and 6-7, low byte
    first. *)
Theorem decode_layout (r : regs) (i : inputs) (b0 b1 b2 b3 b4 b5 b6 b7 : Z) :
  fsm r = READ_DATA ->
  data_new_packet i = true ->
  data_length i = 8 ->
  data_packet i = [b0; b1; b2; b3; b4; b5; b6; b7] ->
  Forall is_byte (data_packet i) ->
  let p := packet (tick r i) in
  recipient p = b0 mod 32 /\
  type p = (b0 / 32) mod 4 /\
  is_in_request p = Z.testbit b0 7 /\
  b0 = recipient p + 32 * type p + 128 * Z.b2z (is_in_request p) /\
  request p = b1 /\
  value p = b2 + 256 * b3 /\
  index p = b4 + 256 * b5 /\
  length p = b6 + 256 * b7.
Proof.
  intros Hs Hnew Hlen Hpkt Hbytes p.
  rewrite Hpkt in Hbytes.
  repeat match goal with
         | H : Forall _ (_ :: _) |- _ => inversion H; subst; clear H
         | H : Forall _ [] |- _ => clear H
         end.
  assert (Hp : p = next_pkt
                     (set_received true
                        (parse_setup_data i
                           (set_received false
                              (set_timer_start true (new_module r)))))).
  { subst p. unfold tick, elaborate. rewrite Hs, Hnew, Hlen.
    destruct (tokenizer_new_token i), (speed i =? USBSpeed.HIGH); reflexivity. }
  rewrite Hp. unfold parse_setup_data, byte. rewrite Hpkt.
  cbn [next_pkt set_received nth recipient type is_in_request request value
       index length].
  assert (Hrec : slice 0 5 b0 = b0 mod 32).
  { rewrite slice_div_mod by lia.
    change (2 ^ 0) with 1. change (2 ^ 5) with 32. now rewrite Z.div_1_r. }
  assert (Hty : slice 5 2 b0 = (b0 / 32) mod 4).
  { rewrite slice_div_mod by lia. reflexivity. }
  assert (Hdir : Z.b2z (Z.testbit b0 7) = (b0 / 128) mod 2).
  { rewrite Z.testbit_spec' by lia. reflexivity. }
  rewrite Hrec, Hty, Hdir.
  unfold is_byte in *.
  repeat split;
    try (apply Cat_bytes; unfold is_byte; lia);
    try (apply trunc_small; [lia | change (2 ^ 8) with 256; lia]).
  Z.to_euclidean_division_equations. lia.
Qed.

(** C1 at the reference payload of the test bench. *)
Lemma decode_layout_witness :
  let p := packet (tick Scenario.awaiting_data
                        (Scenario.data Scenario.reference_payload USBSpeed.HIGH)) in
  recipient p = 66 mod 32 /\
  type p = (66 / 32) mod 4 /\
  is_in_request p = Z.testbit 66 7 /\
  66 = recipient p + 32 * type p + 128 * Z.b2z (is_in_request p) /\
  request p = 12 /\
  value p = 205 + 256 * 171 /\
  index p = 35 + 256 * 1 /\
  length p = 120 + 256 * 86.
Proof.
  apply (decode_layout Scenario.awaiting_data
           (Scenario.data Scenario.reference_payload USBSpeed.HIGH)
           66 12 205 171 35 1 120 86);
    try reflexivity.
  repeat constructor; unfold is_byte; lia.
Defined.

(** ** Handshake timing *)

(** C3: at high speed, whenever the decoder, awaiting the payload, receives a
    data packet of exactly eight bytes, [ack] is driven on that very tick and
    the FSM is back in [IDLE] at the next edge. *)
Theorem high_speed_ack_same_tick (r : regs) (i : inputs) :
  speed i = USBSpeed.HIGH ->
  fsm r = READ_DATA ->
  data_new_packet i = true ->
  data_length i = 8 ->
  ack (outputs r i) = true /\ fsm (tick r i) = IDLE.
Proof.
  intros Hspd Hs Hnew Hlen.
  unfold outputs, tick, elaborate. rewrite Hs, Hnew, Hlen, Hspd.
  destruct (tokenizer_new_token i); split; reflexivity.
Qed.

(** C3 at the reference transaction of [test_valid_sequence_receive]. *)
Lemma high_speed_ack_same_tick_witness :
  ack (outputs Scenario.awaiting_data
         (Scenario.data Scenario.reference_payload USBSpeed.HIGH)) = true /\
  fsm (tick Scenario.awaiting_data
         (Scenario.data Scenario.reference_payload USBSpeed.HIGH)) = IDLE.
Proof.
  apply (high_speed_ack_same_tick Scenario.awaiting_data
           (Scenario.data Scenario.reference_payload USBSpeed.HIGH));
    reflexivity.
Defined.

(** ** The timer's start strobe *)

(** C10: [timer.start] is driven from the deserializer's [new_packet] on
    every tick, whatever the FSM state, the payload length, the link speed
    and every other input. *)
Theorem timer_start_follows_new_packet (r : regs) (i : inputs) :
  timer_start (outputs r i) = data_new_packet i.
Proof.
  unfold outputs, elaborate.
  destruct r as [s p]; destruct s; cbn [fsm];
    destruct (tokenizer_pid i =? SETUP_PID), (tokenizer_new_token i),
             (data_new_packet i), (data_length i =? 8),
             (speed i =? USBSpeed.HIGH), (timer_tx_allowed i);
    reflexivity.
Qed.

(** ** Malformed frames *)

(** C8: a data packet whose length differs from eight, received while the
    decoder awaits the payload, is dropped whole: the FSM returns to [IDLE],
    [received] stays low at the next edge, no field changes and [ack] is not
    driven.  The decoder has no error output at all. *)
Theorem wrong_length_dropped (r : regs) (i : inputs) :
  fsm r = READ_DATA ->
  data_new_packet i = true ->
  data_length i <> 8 ->
  fsm (tick r i) = IDLE /\
  received (packet (tick r i)) = false /\
  fields (packet (tick r i)) = fields (packet r) /\
  ack (outputs r i) = false.
Proof.
  intros Hs Hnew Hlen.
  apply Z.eqb_neq in Hlen.
  unfold outputs, tick, elaborate. rewrite Hs, Hnew, Hlen.
  destruct (tokenizer_new_token i); repeat split; reflexivity.
Qed.

(** C8 at the short payload of [test_short_setup_packet]. *)
Lemma wrong_length_dropped_witness :
  let i := Scenario.data Scenario.short_payload USBSpeed.HIGH in
  fsm (tick Scenario.awaiting_data i) = IDLE /\
  received (packet (tick Scenario.awaiting_data i)) = false /\
  fields (packet (tick Scenario.awaiting_data i))
    = fields (packet Scenario.awaiting_data) /\
  ack (outputs Scenario.awaiting_data i) = false.
Proof.
  apply (wrong_length_dropped Scenario.awaiting_data
           (Scenario.data Scenario.short_payload USBSpeed.HIGH));
    [reflexivity | reflexivity | cbn; lia].
Defined.

(** C7 as stated fails: a token pulse on the tick on which an eight-byte
    data packet completes does not abort the frame.  The data branch is
    elaborated after the token branch and wins: the fields are written,
    [received] is raised and at full speed the FSM goes on to
    [INTERPACKET_DELAY] instead of [IDLE]. *)
Lemma token_with_data_not_discarded :
  let r := Scenario.awaiting_data in
  let i := Scenario.token_and_data SETUP_PID Scenario.reference_payload
             USBSpeed.FULL in
  fsm r = READ_DATA /\
  tokenizer_new_token i = true /\
  fsm (tick r i) = INTERPACKET_DELAY /\
  received (packet (tick r i)) = true /\
  fields (packet (tick r i)) <> fields (packet r).
Proof. cbv. repeat split; congruence. Qed.

(** C7, amended: a token pulse seen while the decoder awaits the payload, on
    a tick on which no eight-byte data packet completes, sends the FSM back
    to [IDLE] with no side effect: [received] stays low at the next edge,
    [ack] is not driven and no field changes. *)
Theorem token_aborts_frame (r : regs) (i : inputs) :
  fsm r = READ_DATA ->
  tokenizer_new_token i = true ->
  decodes r i = false ->
  fsm (tick r i) = IDLE /\
  received (packet (tick r i)) = false /\
  ack (outputs r i) = false /\
  fields (packet (tick r i)) = fields (packet r).
Proof.
  intros Hs Htok Hdec.
  unfold decodes in Hdec. rewrite Hs in Hdec.
  unfold outputs, tick, elaborate. rewrite Hs, Htok.
  destruct (data_new_packet i), (data_length i =? 8);
    try discriminate; repeat split; reflexivity.
Qed.

(** C7 (amended) at a second SETUP token arriving instead of the payload. *)
Lemma token_aborts_frame_witness :
  let r := Scenario.awaiting_data in
  let i := Scenario.token SETUP_PID USBSpeed.FULL in
  fsm (tick r i) = IDLE /\
  received (packet (tick r i)) = false /\
  ack (outputs r i) = false /\
  fields (packet (tick r i)) = fields (packet r).
Proof.
  apply (token_aborts_frame Scenario.awaiting_data
           (Scenario.token SETUP_PID USBSpeed.FULL));
    reflexivity.
Defined.

(** ** The interpacket delay *)

Lemma delay_step (r : regs) (i : inputs) :
  fsm r = INTERPACKET_DELAY ->
  if timer_tx_allowed i
  then ack (outputs r i) = true /\ fsm (tick r i) = IDLE
  else ack (outputs r i) = false /\ fsm (tick r i) = INTERPACKET_DELAY.
Proof.
  intros Hs. unfold outputs, tick, elaborate. rewrite Hs.
  destruct (timer_tx_allowed i); split; cbn; auto.
Qed.

Lemma idle_silent (r : regs) (i : inputs) :
  fsm r = IDLE -> ack (outputs r i) = false.
Proof.
  intros Hs. unfold outputs, elaborate. rewrite Hs.
  destruct (tokenizer_pid i =? SETUP_PID), (tokenizer_new_token i);
    reflexivity.
Qed.

(** Whenever the FSM is in [INTERPACKET_DELAY], the input sequence so far
    ends with a decode followed by ticks on which [tx_allowed] stayed low. *)
Lemma delay_history (pre : list inputs) :
  fsm (run reset pre) = INTERPACKET_DELAY ->
  exists before d wait,
    pre = before ++ d :: wait /\
    decodes (run reset before) d = true /\
    Forall tx_held wait.
Proof.
  induction pre as [| x pre IH] using rev_ind.
  - discriminate.
  - rewrite run_snoc. intros Hs.
    destruct (delay_entered _ _ Hs) as [[Hdec _] | [Hprev Htx]].
    + exists pre, x, []. repeat split; auto.
    + destruct (IH Hprev) as (before & d & wait & -> & Hdec & Hwait).
      exists before, d, (wait ++ [x]). repeat split.
      * now rewrite <- app_assoc.
      * assumption.
      * apply Forall_app. split; [assumption | now constructor].
Qed.

(** C6: in [INTERPACKET_DELAY] the token detector's signals have no effect
    on the registers after the tick nor on the wires during it; the FSM
    leaves the state exactly on a tick on which [tx_allowed] is high, and on
    that tick it drives [ack] and goes to [IDLE]. *)
Theorem delay_ignores_tokens
  (r : regs) (i : inputs) (pid : Z) (new_token : bool) :
  fsm r = INTERPACKET_DELAY ->
  tick r (with_token pid new_token i) = tick r i /\
  outputs r (with_token pid new_token i) = outputs r i /\
  (if timer_tx_allowed i
   then ack (outputs r i) = true /\ fsm (tick r i) = IDLE
   else ack (outputs r i) = false /\ fsm (tick r i) = INTERPACKET_DELAY).
Proof.
  intros Hs. split; [| split].
  - unfold tick, elaborate. rewrite Hs. reflexivity.
  - unfold outputs, elaborate. rewrite Hs. reflexivity.
  - now apply delay_step.
Qed.

(** C6 at a SETUP token arriving while the decoder waits out the delay. *)
Lemma delay_ignores_tokens_witness :
  let r := Scenario.delaying in
  let i := Scenario.quiet USBSpeed.FULL in
  tick r (with_token SETUP_PID true i) = tick r i /\
  outputs r (with_token SETUP_PID true i) = outputs r i /\
  ack (outputs r i) = false /\ fsm (tick r i) = INTERPACKET_DELAY.
Proof.
  apply (delay_ignores_tokens Scenario.delaying
           (Scenario.quiet USBSpeed.FULL) SETUP_PID true).
  reflexivity.
Defined.

(** C2 as stated fails: [ack] is a wire driven from [tx_allowed], so it is
    high on the tick on which [tx_allowed] is high and low again on the tick
    after.  Full speed, reference payload, [tx_allowed] on the fourth
    tick. *)
Lemma ack_not_one_tick_after_tx_allowed :
  let ins := [ Scenario.token SETUP_PID USBSpeed.FULL;
               Scenario.data Scenario.reference_payload USBSpeed.FULL;
               Scenario.quiet USBSpeed.FULL;
               Scenario.tx_allowed USBSpeed.FULL;
               Scenario.quiet USBSpeed.FULL ] in
  Forall full_or_low ins /\
  map timer_tx_allowed ins = [false; false; false; true; false] /\
  ack_trace reset ins = [false; false; false; true; false].
Proof.
  repeat split. repeat constructor; left; reflexivity.
Qed.

(** C2, amended: at full or low speed, [ack] is high on a tick exactly when
    the FSM is in [INTERPACKET_DELAY] and [tx_allowed] is high on that same
    tick; the FSM is in [INTERPACKET_DELAY] only after a decode since which
    [tx_allowed] has stayed low, so [ack] never precedes [tx_allowed]; and
    on the tick after an [ack] the FSM is in [IDLE] and [ack] is low. *)
Theorem ack_on_tx_allowed (pre : list inputs) (i j : inputs) :
  Forall full_or_low (pre ++ [i]) ->
  let r := run reset pre in
  (ack (outputs r i) = true <->
   fsm r = INTERPACKET_DELAY /\ timer_tx_allowed i = true) /\
  (fsm r = INTERPACKET_DELAY ->
   exists before d wait,
     pre = before ++ d :: wait /\
     decodes (run reset before) d = true /\
     Forall tx_held wait) /\
  (ack (outputs r i) = true ->
   fsm (tick r i) = IDLE /\ ack (outputs (tick r i) j) = false).
Proof.
  intros Hspd r.
  assert (Hi : (speed i =? USBSpeed.HIGH) = false).
  { apply Forall_app in Hspd. destruct Hspd as [_ Hspd].
    inversion Hspd as [| ? ? [Hf | Hl] _]; subst;
      [rewrite Hf | rewrite Hl]; reflexivity. }
  assert (Hack : ack (outputs r i) = true <->
                 fsm r = INTERPACKET_DELAY /\ timer_tx_allowed i = true).
  { rewrite ack_cases, Hi, andb_false_r. cbn [orb].
    destruct (fsm r); split; try tauto; try (intros [? ?]; congruence);
      discriminate. }
  split; [exact Hack | split].
  - apply delay_history.
  - intros Hon. apply Hack in Hon. destruct Hon as [Hs Htx].
    pose proof (delay_step r i Hs) as Hstep. rewrite Htx in Hstep.
    destruct Hstep as [_ Hidle]. split; [assumption |].
    now apply idle_silent.
Qed.

(** C2 (amended) at the full-speed reference transaction: [ack] on the tick
    of [tx_allowed], which comes after the decode, and [IDLE] after it. *)
Lemma ack_on_tx_allowed_witness :
  let pre := [ Scenario.token SETUP_PID USBSpeed.FULL;
               Scenario.data Scenario.reference_payload USBSpeed.FULL;
               Scenario.quiet USBSpeed.FULL ] in
  let i := Scenario.tx_allowed USBSpeed.FULL in
  let j := Scenario.quiet USBSpeed.FULL in
  Forall full_or_low (pre ++ [i]) /\
  ack (outputs (run reset pre) i) = true /\
  fsm (tick (run reset pre) i) = IDLE /\
  ack (outputs (tick (run reset pre) i) j) = false.
Proof.
  intros pre i j.
  assert (Hspd : Forall full_or_low (pre ++ [i]))
    by (repeat constructor; left; reflexivity).
  destruct (ack_on_tx_allowed pre i j Hspd) as (Hack & _ & Hnext).
  assert (Hon : ack (outputs (run reset pre) i) = true)
    by (apply Hack; split; reflexivity).
  destruct (Hnext Hon) as [Hidle Hlow].
  repeat split; assumption.
Defined.

(** ** The [received] strobe and the stability of the fields *)

(** C5: over any stretch of ticks none of which completes a decode --
    tokens of any PID, aborted frames, data packets of the wrong length,
    waiting for the timer -- every field of the packet record keeps its
    value; a field changes only on a tick that decodes. *)
Theorem fields_stable (r : regs) (ins : list inputs) :
  decode_free r ins = true ->
  fields (packet (run r ins)) = fields (packet r).
Proof.
  revert r. induction ins as [| i ins IH]; intros r Hfree.
  - reflexivity.
  - cbn [decode_free] in Hfree. apply andb_true_iff in Hfree.
    destruct Hfree as [Hi Hrest]. apply negb_true_iff in Hi.
    change (run r (i :: ins)) with (run (tick r i) ins).
    rewrite (IH _ Hrest). now apply fields_hold.
Qed.

(** C5 after the full-speed reference decode: the timer fires, an IN token
    passes, a SETUP frame is aborted by a second token, another one carries
    a short payload; the decoded fields stay. *)
Lemma fields_stable_witness :
  let ins := [ Scenario.quiet USBSpeed.FULL;
               Scenario.tx_allowed USBSpeed.FULL;
               Scenario.token 9 USBSpeed.FULL;
               Scenario.token SETUP_PID USBSpeed.FULL;
               Scenario.token SETUP_PID USBSpeed.FULL;
               Scenario.token SETUP_PID USBSpeed.FULL;
               Scenario.data Scenario.short_payload USBSpeed.FULL;
               Scenario.data Scenario.reference_payload USBSpeed.FULL ] in
  fields (packet (run Scenario.delaying ins))
    = (false, 2, 2, 12, 43981, 291, 22136).
Proof.
  intros ins.
  rewrite (fields_stable Scenario.delaying ins); reflexivity.
Defined.

End SetupDecoderFacts.

(** * Properties of the request handler *)

Module StandardRequestHandlerFacts.
Import StandardRequestHandler.

Lemma unhandled_waits (quiet : list inputs) :
  Forall no_strobe quiet ->
  run UNHANDLED quiet = UNHANDLED /\
  stall_trace UNHANDLED quiet = repeat false (List.length quiet).
Proof.
  induction 1 as [| i quiet Hi _ [IHrun IHstall]].
  - split; reflexivity.
  - unfold no_strobe in Hi.
    assert (Hstep : elaborate UNHANDLED i = mkModule UNHANDLED false).
    { unfold elaborate. rewrite Hi. reflexivity. }
    split.
    + change (run UNHANDLED (i :: quiet))
        with (run (tick UNHANDLED i) quiet).
      unfold tick. rewrite Hstep. exact IHrun.
    + cbn [stall_trace List.length repeat]. unfold tick.
      rewrite Hstep. cbn [stall next]. now rewrite IHstall.
Qed.

Lemma stall_trace_app (s : fsm_state) (xs ys : list inputs) :
  stall_trace s (xs ++ ys) = stall_trace s xs ++ stall_trace (run s xs) ys.
Proof.
  revert s. induction xs as [| x xs IH]; intros s.
  - reflexivity.
  - cbn [app stall_trace]. rewrite IH. reflexivity.
Qed.

(** C9: from [IDLE], a [setup.received] pulse takes the handler to
    [UNHANDLED]; it waits there, with [stall] low, through any ticks without
    a phase strobe; on the first tick on which [data_requested] or
    [status_requested] is high it drives [stall] and returns to [IDLE], and
    [stall] is low again on the tick after. *)
Theorem unhandled_request_stalled
  (i0 : inputs) (quiet : list inputs) (i j : inputs) :
  setup_received i0 = true ->
  Forall no_strobe quiet ->
  data_requested i || status_requested i = true ->
  tick IDLE i0 = UNHANDLED /\
  stall (elaborate IDLE i0) = false /\
  stall_trace (tick IDLE i0) (quiet ++ [i; j])
    = repeat false (List.length quiet) ++ [true; false] /\
  run (tick IDLE i0) (quiet ++ [i]) = IDLE.
Proof.
  intros Hrecv Hquiet Hstrobe.
  assert (Hgo : tick IDLE i0 = UNHANDLED).
  { unfold tick, elaborate. rewrite Hrecv. reflexivity. }
  destruct (unhandled_waits quiet Hquiet) as [Hrun Hstall].
  assert (Hfire : elaborate UNHANDLED i = mkModule IDLE true).
  { unfold elaborate. rewrite Hstrobe. reflexivity. }
  rewrite Hgo. repeat split.
  - unfold elaborate. rewrite Hrecv. reflexivity.
  - rewrite stall_trace_app, Hrun, Hstall.
    cbn [stall_trace]. unfold tick. rewrite Hfire. cbn [stall next].
    f_equal. f_equal. f_equal.
    unfold elaborate. destruct (setup_received j); reflexivity.
  - unfold run. rewrite fold_left_app. fold (run UNHANDLED quiet).
    rewrite Hrun. cbn [fold_left]. unfold tick. rewrite Hfire. reflexivity.
Qed.

(** C9 at a request whose data phase is asked for two ticks after the setup
    packet arrived. *)
Lemma unhandled_request_stalled_witness :
  let i0 := mkInputs true false false in
  let quiet := [mkInputs false false false; mkInputs false false false] in
  let i := mkInputs false true false in
  let j := mkInputs false false false in
  tick IDLE i0 = UNHANDLED /\
  stall (elaborate IDLE i0) = false /\
  stall_trace (tick IDLE i0) (quiet ++ [i; j])
    = [false; false; true; false] /\
  run (tick IDLE i0) (quiet ++ [i]) = IDLE.
Proof.
  apply (unhandled_request_stalled
           (mkInputs true false false)
           [mkInputs false false false; mkInputs false false false]
           (mkInputs false true false)
           (mkInputs false false false)).
  - reflexivity.
  - repeat constructor.
  - reflexivity.
Defined.

End StandardRequestHandlerFacts.

(** * Whole transactions at the SETUP decoder *)

Module SetupDecoderTraceFacts.
Import SetupDecoder SetupDecoderTraces SetupDecoderFacts.

(** ** Single ticks, state by state *)

Lemma regs_eta (r : regs) : r = mkRegs (fsm r) (packet r).
Proof. destruct r; reflexivity. Qed.

Lemma deasserted_idem (p : SetupPacket) :
  deasserted (deasserted p) = deasserted p.
Proof. reflexivity. Qed.

Lemma deasserted_low (p : SetupPacket) :
  received p = false -> deasserted p = p.
Proof. destruct p; cbn. now intros ->. Qed.

Lemma fields_deasserted (p : SetupPacket) : fields (deasserted p) = fields p.
Proof. reflexivity. Qed.

Lemma idle_tick (r : regs) (i : inputs) :
  fsm r = IDLE ->
  tick r i = mkRegs (if setup_token i then READ_DATA else IDLE)
                    (deasserted (packet r)).
Proof.
  destruct r as [s p]. cbn [fsm packet]. intros ->.
  unfold tick, elaborate, setup_token. cbn [fsm].
  destruct ((tokenizer_pid i =? SETUP_PID) && tokenizer_new_token i);
    reflexivity.
Qed.

Lemma read_data_silent_tick (r : regs) (i : inputs) :
  fsm r = READ_DATA -> silent i = true ->
  tick r i = mkRegs READ_DATA (deasserted (packet r)) /\
  ack (outputs r i) = false.
Proof.
  destruct r as [s p]. cbn [fsm packet]. intros -> Hq.
  unfold silent in Hq. apply andb_true_iff in Hq.
  destruct Hq as [Ht Hd].
  apply negb_true_iff in Ht. apply negb_true_iff in Hd.
  unfold tick, outputs, elaborate. cbn [fsm].
  rewrite Ht, Hd. split; reflexivity.
Qed.

Lemma read_data_abort_tick (r : regs) (i : inputs) :
  fsm r = READ_DATA -> decodes r i = false ->
  tokenizer_new_token i || data_new_packet i = true ->
  tick r i = mkRegs IDLE (deasserted (packet r)) /\
  ack (outputs r i) = false.
Proof.
  destruct r as [s p]. cbn [fsm packet]. intros -> Hdec Hp.
  unfold decodes in Hdec. cbn [fsm] in Hdec.
  unfold tick, outputs, elaborate. cbn [fsm].
  destruct (tokenizer_new_token i), (data_new_packet i),
           (data_length i =? 8); try discriminate; split; reflexivity.
Qed.

Lemma read_data_decode_tick (r : regs) (i : inputs) :
  decodes r i = true ->
  fsm (tick r i)
    = (if speed i =? USBSpeed.HIGH then IDLE else INTERPACKET_DELAY) /\
  ack (outputs r i) = (speed i =? USBSpeed.HIGH) /\
  packet (tick r i)
    = packet (tick (mkRegs READ_DATA (deasserted (packet r))) i).
Proof.
  intros Hdec. pose proof (decodes_in_READ_DATA _ _ Hdec) as Hs.
  destruct r as [s p]. cbn [fsm packet] in *. subst s.
  unfold decodes in Hdec. cbn [fsm] in Hdec.
  apply andb_true_iff in Hdec. destruct Hdec as [Hnew Hlen].
  unfold tick, outputs, elaborate. cbn [fsm packet].
  rewrite Hnew, Hlen.
  destruct (tokenizer_new_token i), (speed i =? USBSpeed.HIGH);
    repeat split; reflexivity.
Qed.

Lemma delay_tick (r : regs) (i : inputs) :
  fsm r = INTERPACKET_DELAY ->
  tick r i = mkRegs (if timer_tx_allowed i then IDLE else INTERPACKET_DELAY)
                    (deasserted (packet r)) /\
  ack (outputs r i) = timer_tx_allowed i.
Proof.
  destruct r as [s p]. cbn [fsm packet]. intros ->.
  unfold tick, outputs, elaborate. cbn [fsm].
  destruct (timer_tx_allowed i); split; reflexivity.
Qed.

Lemma read_data_entered (r : regs) (i : inputs) :
  fsm (tick r i) = READ_DATA ->
  (fsm r = IDLE /\ setup_token i = true)
  \/ (fsm r = READ_DATA /\ silent i = true).
Proof.
  unfold setup_token, silent, tick, elaborate.
  destruct r as [s p]; destruct s; cbn [fsm];
    destruct (tokenizer_pid i =? SETUP_PID), (tokenizer_new_token i),
             (data_new_packet i), (data_length i =? 8),
             (speed i =? USBSpeed.HIGH), (timer_tx_allowed i);
    cbn; intros H; try discriminate; auto.
Qed.

(** ** Runs *)

Lemma run_cons (r : regs) (i : inputs) (ins : list inputs) :
  run r (i :: ins) = run (tick r i) ins.
Proof. reflexivity. Qed.

Lemma ack_trace_app (r : regs) (xs ys : list inputs) :
  ack_trace r (xs ++ ys) = ack_trace r xs ++ ack_trace (run r xs) ys.
Proof.
  revert r. induction xs as [| x xs IH]; intros r.
  - reflexivity.
  - cbn [app ack_trace]. rewrite IH. reflexivity.
Qed.

Lemma repeat_snoc {A : Type} (a : A) (n : nat) :
  repeat a n ++ [a] = repeat a (S n).
Proof. induction n as [| n IH]; cbn; [reflexivity | now rewrite IH]. Qed.

(** Waiting for the payload: silent ticks change nothing. *)
Lemma read_data_waits (p : SetupPacket) (gap : list inputs) :
  Forall (fun i => silent i = true) gap ->
  run (mkRegs READ_DATA (deasserted p)) gap = mkRegs READ_DATA (deasserted p)
  /\ ack_trace (mkRegs READ_DATA (deasserted p)) gap
     = repeat false (List.length gap).
Proof.
  induction 1 as [| i gap Hi _ [IHrun IHack]].
  - split; reflexivity.
  - destruct (read_data_silent_tick (mkRegs READ_DATA (deasserted p)) i
                eq_refl Hi) as [Ht Ha].
    cbn [packet] in Ht. rewrite deasserted_idem in Ht.
    rewrite run_cons. cbn [ack_trace List.length repeat].
    rewrite Ht, Ha, IHrun, IHack. split; reflexivity.
Qed.

(** Waiting for the timer: ticks with [tx_allowed] low change nothing. *)
Lemma delay_waits (p : SetupPacket) (wait : list inputs) :
  Forall tx_held wait ->
  run (mkRegs INTERPACKET_DELAY (deasserted p)) wait
    = mkRegs INTERPACKET_DELAY (deasserted p)
  /\ ack_trace (mkRegs INTERPACKET_DELAY (deasserted p)) wait
     = repeat false (List.length wait).
Proof.
  induction 1 as [| i wait Hi _ [IHrun IHack]].
  - split; reflexivity.
  - destruct (delay_tick (mkRegs INTERPACKET_DELAY (deasserted p)) i eq_refl)
      as [Ht Ha].
    unfold tx_held in Hi. rewrite Hi in Ht, Ha.
    cbn [packet] in Ht. rewrite deasserted_idem in Ht.
    rewrite run_cons. cbn [ack_trace List.length repeat].
    rewrite Ht, Ha, IHrun, IHack. split; reflexivity.
Qed.

(** A SETUP token in [IDLE] followed by silent ticks: the decoder awaits the
    payload, the packet record untouched. *)
Lemma frame_opened (r : regs) (tok : inputs) (gap : list inputs) :
  fsm r = IDLE -> setup_token tok = true ->
  Forall (fun i => silent i = true) gap ->
  run r (tok :: gap) = mkRegs READ_DATA (deasserted (packet r)) /\
  ack_trace r (tok :: gap) = repeat false (S (List.length gap)).
Proof.
  intros Hs Htok Hgap.
  destruct (read_data_waits (packet r) gap Hgap) as [Hrun Hack].
  rewrite run_cons. cbn [ack_trace repeat].
  rewrite (idle_silent r tok Hs), (idle_tick r tok Hs), Htok, Hrun, Hack.
  split; reflexivity.
Qed.

(** ** Field widths *)

Lemma trunc_range (w v : Z) : 0 <= w -> 0 <= trunc w v < 2 ^ w.
Proof.
  intros Hw. rewrite trunc_mod by assumption.
  apply Z.mod_pos_bound. now apply Z.pow_pos_nonneg.
Qed.

Lemma decoded_fields (r : regs) (i : inputs) :
  decodes r i = true ->
  fields (packet (tick r i))
  = (Z.testbit (byte i 0) 7, slice 5 2 (byte i 0), slice 0 5 (byte i 0),
     trunc 8 (byte i 1),
     trunc 16 (Cat 8 (byte i 2) (byte i 3)),
     trunc 16 (Cat 8 (byte i 4) (byte i 5)),
     trunc 16 (Cat 8 (byte i 6) (byte i 7))).
Proof.
  intros Hdec. pose proof (decodes_in_READ_DATA _ _ Hdec) as Hs.
  destruct r as [s p]. cbn [fsm packet] in *. subst s.
  unfold decodes in Hdec. cbn [fsm] in Hdec.
  apply andb_true_iff in Hdec. destruct Hdec as [Hnew Hlen].
  unfold tick, elaborate. cbn [fsm packet]. rewrite Hnew, Hlen.
  destruct (tokenizer_new_token i), (speed i =? USBSpeed.HIGH); reflexivity.
Qed.

Lemma within_widths_fields (p q : SetupPacket) :
  fields p = fields q -> within_widths q -> within_widths p.
Proof.
  unfold fields, within_widths. intros Heq.
  injection Heq as _ -> -> -> -> -> ->. auto.
Qed.

Lemma tick_within_widths (r : regs) (i : inputs) :
  within_widths (packet r) -> within_widths (packet (tick r i)).
Proof.
  intros Hw. destruct (decodes r i) eqn:Hdec.
  - pose proof (decoded_fields r i Hdec) as Hf.
    remember (packet (tick r i)) as q eqn:Hq. clear Hq.
    unfold fields in Hf. injection Hf as _ Hty Hrc Hrq Hv Hix Hln.
    unfold within_widths. rewrite Hty, Hrc, Hrq, Hv, Hix, Hln.
    unfold slice.
    change 4 with (2 ^ 2). change 32 with (2 ^ 5).
    change 256 with (2 ^ 8). change 65536 with (2 ^ 16).
    repeat split; apply trunc_range; lia.
  - eapply within_widths_fields; [now apply fields_hold | assumption].
Qed.

(** X1: whatever the inputs carry -- also values wider than a byte -- every
    field of the packet record stays within the width its signal is declared
    with, in every state reached from reset. *)
Theorem fields_within_widths (ins : list inputs) :
  within_widths (packet (run reset ins)).
Proof.
  induction ins as [| i ins IH] using rev_ind.
  - cbn. unfold within_widths. cbn. lia.
  - rewrite run_snoc. now apply tick_within_widths.
Qed.

(** ** What opens a frame *)

(** X2: as long as no token pulse carries the SETUP PID, the decoder does
    nothing: it stays in its reset state and never drives [ack], whatever
    data packets and timer pulses arrive. *)
Theorem no_setup_token_no_activity (ins : list inputs) :
  Forall (fun i => setup_token i = false) ins ->
  run reset ins = reset /\
  ack_trace reset ins = repeat false (List.length ins).
Proof.
  induction 1 as [| i ins Hi _ [IHrun IHack]].
  - split; reflexivity.
  - rewrite run_cons. cbn [ack_trace List.length repeat].
    rewrite (idle_silent reset i eq_refl), (idle_tick reset i eq_refl), Hi.
    change (mkRegs IDLE (deasserted (packet reset))) with reset.
    rewrite IHrun, IHack. split; reflexivity.
Qed.

(** X2 at an eight-byte data packet, an IN token and a timer pulse. *)
Lemma no_setup_token_no_activity_witness :
  let ins := [ Scenario.data Scenario.reference_payload USBSpeed.HIGH;
               Scenario.token 9 USBSpeed.HIGH;
               Scenario.tx_allowed USBSpeed.HIGH ] in
  run reset ins = reset /\ ack_trace reset ins = [false; false; false].
Proof.
  apply (no_setup_token_no_activity
           [ Scenario.data Scenario.reference_payload USBSpeed.HIGH;
             Scenario.token 9 USBSpeed.HIGH;
             Scenario.tx_allowed USBSpeed.HIGH ]).
  repeat constructor.
Defined.

(** X3: whenever the decoder awaits a payload, the input sequence so far
    ends with a SETUP token seen in [IDLE] followed only by ticks on which
    neither a token nor a data packet arrived. *)
Theorem frame_history (pre : list inputs) :
  fsm (run reset pre) = READ_DATA ->
  exists before tok gap,
    pre = before ++ tok :: gap /\
    fsm (run reset before) = IDLE /\
    setup_token tok = true /\
    Forall (fun i => silent i = true) gap.
Proof.
  induction pre as [| x pre IH] using rev_ind.
  - discriminate.
  - rewrite run_snoc. intros Hs.
    destruct (read_data_entered _ _ Hs) as [[Hidle Htok] | [Hprev Hq]].
    + exists pre, x, []. repeat split; auto.
    + destruct (IH Hprev) as (before & tok & gap & -> & Hb & Htok & Hgap).
      exists before, tok, (gap ++ [x]). repeat split; auto.
      * now rewrite <- app_assoc.
      * apply Forall_app. split; [assumption | now constructor].
Qed.

(** X3 at a SETUP token followed by two silent ticks. *)
Lemma frame_history_witness :
  exists before tok gap,
    [ Scenario.quiet USBSpeed.HIGH;
      Scenario.token SETUP_PID USBSpeed.HIGH;
      Scenario.quiet USBSpeed.HIGH;
      Scenario.tx_allowed USBSpeed.HIGH ] = before ++ tok :: gap /\
    fsm (run reset before) = IDLE /\
    setup_token tok = true /\
    Forall (fun i => silent i = true) gap.
Proof.
  apply (frame_history
           [ Scenario.quiet USBSpeed.HIGH;
             Scenario.token SETUP_PID USBSpeed.HIGH;
             Scenario.quiet USBSpeed.HIGH;
             Scenario.tx_allowed USBSpeed.HIGH ]).
  reflexivity.
Defined.

(** ** Acknowledgments *)

Lemma accounting_step (r : regs) (i : inputs) :
  ((if decodes r i then 1 else 0) + ack_owed r
   = (if ack (outputs r i) then 1 else 0) + ack_owed (tick r i))%nat.
Proof.
  unfold ack_owed, decodes, tick, outputs, elaborate.
  destruct r as [s p]; destruct s; cbn [fsm];
    destruct (tokenizer_pid i =? SETUP_PID), (tokenizer_new_token i),
             (data_new_packet i), (data_length i =? 8),
             (speed i =? USBSpeed.HIGH), (timer_tx_allowed i);
    reflexivity.
Qed.

Lemma accounting_run (r : regs) (ins : list inputs) :
  (count_decodes r ins + ack_owed r
   = count_acks r ins + ack_owed (run r ins))%nat.
Proof.
  revert r. induction ins as [| i ins IH]; intros r.
  - reflexivity.
  - cbn [count_decodes count_acks]. rewrite run_cons.
    pose proof (accounting_step r i). pose proof (IH (tick r i)). lia.
Qed.

(** X4: over every input sequence from reset, each decode is acknowledged
    exactly once: the number of decodes is the number of [ack] pulses, plus
    one while the decoder is waiting out the interpacket delay.  So [ack] is
    never driven without a decode, and never twice for one. *)
Theorem every_decode_acked_once (ins : list inputs) :
  count_decodes reset ins
  = (count_acks reset ins + ack_owed (run reset ins))%nat.
Proof.
  pose proof (accounting_run reset ins) as H.
  change (ack_owed reset) with O in H. lia.
Qed.

(** X5: [ack] is a pulse of one tick: on the tick after it the FSM is in
    [IDLE] and [ack] is low, whatever arrives. *)
Theorem ack_single_tick (r : regs) (i j : inputs) :
  ack (outputs r i) = true ->
  fsm (tick r i) = IDLE /\ ack (outputs (tick r i) j) = false.
Proof.
  intros Hack.
  assert (Hidle : fsm (tick r i) = IDLE).
  { rewrite ack_cases in Hack. apply orb_true_iff in Hack.
    destruct Hack as [Hhs | Hdelay].
    - apply andb_true_iff in Hhs. destruct Hhs as [Hdec Hspd].
      destruct (read_data_decode_tick r i Hdec) as [Hs _].
      now rewrite Hspd in Hs.
    - destruct (fsm r) eqn:Hs; try discriminate.
      destruct (delay_tick r i Hs) as [Ht _].
      rewrite Ht, Hdelay. reflexivity. }
  split; [assumption | now apply idle_silent].
Qed.

(** X5 at the high-speed reference decode, with a second payload arriving on
    the next tick. *)
Lemma ack_single_tick_witness :
  let d := Scenario.data Scenario.reference_payload USBSpeed.HIGH in
  fsm (tick Scenario.awaiting_data d) = IDLE /\
  ack (outputs (tick Scenario.awaiting_data d) d) = false.
Proof.
  apply (ack_single_tick Scenario.awaiting_data
           (Scenario.data Scenario.reference_payload USBSpeed.HIGH)
           (Scenario.data Scenario.reference_payload USBSpeed.HIGH)).
  reflexivity.
Defined.

(** X6: while the timer keeps [tx_allowed] low the decoder stays in
    [INTERPACKET_DELAY] for any number of ticks, with [ack] low and the
    packet record untouched: there is no timeout, and SETUP tokens and
    payloads that arrive meanwhile are lost. *)
Theorem starved_timer_blocks (r : regs) (w : inputs) (wait : list inputs) :
  fsm r = INTERPACKET_DELAY ->
  Forall tx_held (w :: wait) ->
  run r (w :: wait) = mkRegs INTERPACKET_DELAY (deasserted (packet r)) /\
  ack_trace r (w :: wait) = repeat false (S (List.length wait)).
Proof.
  intros Hs Hheld. inversion Hheld as [| ? ? Hw Hwait]; subst.
  destruct (delay_tick r w Hs) as [Ht Ha].
  unfold tx_held in Hw. rewrite Hw in Ht, Ha.
  destruct (delay_waits (packet r) wait Hwait) as [Hrun Hack].
  rewrite run_cons. cbn [ack_trace repeat].
  rewrite Ht, Ha, Hrun, Hack. split; reflexivity.
Qed.

(** X6 at a complete second SETUP transaction arriving during the delay. *)
Lemma starved_timer_blocks_witness :
  let ins := [ Scenario.token SETUP_PID USBSpeed.FULL;
               Scenario.data [0; 1; 2; 3; 4; 5; 6; 7] USBSpeed.FULL;
               Scenario.quiet USBSpeed.HIGH ] in
  run Scenario.delaying ins
    = mkRegs INTERPACKET_DELAY (deasserted (packet Scenario.delaying)) /\
  ack_trace Scenario.delaying ins = [false; false; false].
Proof.
  apply (starved_timer_blocks Scenario.delaying
           (Scenario.token SETUP_PID USBSpeed.FULL)
           [ Scenario.data [0; 1; 2; 3; 4; 5; 6; 7] USBSpeed.FULL;
             Scenario.quiet USBSpeed.HIGH ]).
  - reflexivity.
  - repeat constructor.
Defined.

(** ** Complete transactions *)

Lemma valid_payload_decodes (p : SetupPacket) (d : inputs) :
  data_new_packet d = true -> data_length d = 8 ->
  decodes (mkRegs READ_DATA p) d = true.
Proof. intros Hnew Hlen. unfold decodes. cbn [fsm]. now rewrite Hnew, Hlen. Qed.

(** X7: a high-speed SETUP transaction.  From [IDLE], a SETUP token, any
    number of silent ticks and then an eight-byte data packet at high speed:
    [ack] is low until the payload completes and high on that tick, the
    decoder is back in [IDLE] with [received] high, and the packet record is
    the one a single decode tick produces -- the gap leaves no trace. *)
Theorem high_speed_transaction
  (r : regs) (tok : inputs) (gap : list inputs) (d : inputs) :
  fsm r = IDLE ->
  setup_token tok = true ->
  Forall (fun i => silent i = true) gap ->
  data_new_packet d = true ->
  data_length d = 8 ->
  speed d = USBSpeed.HIGH ->
  let r' := run r (tok :: gap ++ [d]) in
  ack_trace r (tok :: gap ++ [d])
    = repeat false (S (List.length gap)) ++ [true] /\
  fsm r' = IDLE /\
  received (packet r') = true /\
  packet r' = packet (tick (mkRegs READ_DATA (deasserted (packet r))) d).
Proof.
  intros Hs Htok Hgap Hnew Hlen Hspd r'.
  destruct (frame_opened r tok gap Hs Htok Hgap) as [Hrun Hack].
  pose proof (valid_payload_decodes (deasserted (packet r)) d Hnew Hlen)
    as Hdec.
  destruct (read_data_decode_tick _ d Hdec) as (Hnext & Hon & Hpkt).
  rewrite Hspd in Hnext, Hon. cbn in Hnext, Hon.
  subst r'. rewrite !app_comm_cons, run_snoc, ack_trace_app, Hrun, Hack.
  cbn [ack_trace]. rewrite Hon. repeat split.
  - assumption.
  - rewrite received_next. assumption.
Qed.

(** X7 at the transaction of [test_valid_sequence_receive], two silent
    ticks between token and payload. *)
Lemma high_speed_transaction_witness :
  let tok := Scenario.token SETUP_PID USBSpeed.HIGH in
  let gap := [Scenario.quiet USBSpeed.HIGH; Scenario.quiet USBSpeed.HIGH] in
  let d := Scenario.data Scenario.reference_payload USBSpeed.HIGH in
  let r' := run reset (tok :: gap ++ [d]) in
  ack_trace reset (tok :: gap ++ [d]) = [false; false; false; true] /\
  fsm r' = IDLE /\
  received (packet r') = true /\
  packet r' = packet (tick (mkRegs READ_DATA (deasserted (packet reset))) d).
Proof.
  apply (high_speed_transaction reset
           (Scenario.token SETUP_PID USBSpeed.HIGH)
           [Scenario.quiet USBSpeed.HIGH; Scenario.quiet USBSpeed.HIGH]
           (Scenario.data Scenario.reference_payload USBSpeed.HIGH));
    try reflexivity.
  repeat constructor.
Defined.

(** X8: a SETUP transaction at any speed other than high (full, low, or the
    unassigned value 3).  From [IDLE], a SETUP token, silent ticks, an
    eight-byte data packet, ticks on which the timer holds [tx_allowed] low
    and then one on which it is high: [ack] is low throughout and high on
    that last tick only; the decoder ends in [IDLE] holding the decoded
    fields. *)
Theorem delayed_transaction
  (r : regs) (tok : inputs) (gap : list inputs) (d : inputs)
  (wait : list inputs) (tx : inputs) :
  fsm r = IDLE ->
  setup_token tok = true ->
  Forall (fun i => silent i = true) gap ->
  data_new_packet d = true ->
  data_length d = 8 ->
  speed d <> USBSpeed.HIGH ->
  Forall tx_held wait ->
  timer_tx_allowed tx = true ->
  let ins := tok :: gap ++ d :: wait ++ [tx] in
  ack_trace r ins
    = repeat false (List.length gap + List.length wait + 2) ++ [true] /\
  fsm (run r ins) = IDLE /\
  fields (packet (run r ins))
    = fields (packet (tick (mkRegs READ_DATA (deasserted (packet r))) d)).
Proof.
  intros Hs Htok Hgap Hnew Hlen Hspd Hwait Htx ins.
  apply Z.eqb_neq in Hspd.
  destruct (frame_opened r tok gap Hs Htok Hgap) as [Hrun Hack].
  pose proof (valid_payload_decodes (deasserted (packet r)) d Hnew Hlen)
    as Hdec.
  destruct (read_data_decode_tick _ d Hdec) as (Hnext & Hoff & _).
  rewrite Hspd in Hnext, Hoff.
  set (q := packet (tick (mkRegs READ_DATA (deasserted (packet r))) d)) in *.
  assert (Hdelay : run r (tok :: gap ++ [d])
                   = mkRegs INTERPACKET_DELAY q).
  { rewrite !app_comm_cons, run_snoc, Hrun.
    rewrite (regs_eta (tick _ d)), Hnext. reflexivity. }
  assert (Hrest : forall r0, fsm r0 = INTERPACKET_DELAY ->
            run r0 (wait ++ [tx]) = mkRegs IDLE (deasserted (packet r0)) /\
            ack_trace r0 (wait ++ [tx])
              = repeat false (List.length wait) ++ [true]).
  { clear - Hwait Htx. induction Hwait as [| w wait Hw _ IH]; intros r0 Hr0.
    - destruct (delay_tick r0 tx Hr0) as [Ht Ha]. rewrite Htx in Ht, Ha.
      cbn [app run fold_left ack_trace List.length repeat].
      rewrite Ht, Ha. split; reflexivity.
    - destruct (delay_tick r0 w Hr0) as [Ht Ha].
      unfold tx_held in Hw. rewrite Hw in Ht, Ha.
      cbn [app]. rewrite run_cons. cbn [ack_trace List.length repeat].
      rewrite Ha, Ht.
      destruct (IH (mkRegs INTERPACKET_DELAY (deasserted (packet r0)))
                  eq_refl) as [IHrun IHack].
      cbn [packet] in IHrun. rewrite deasserted_idem in IHrun.
      rewrite IHrun, IHack. split; reflexivity. }
  destruct (Hrest (mkRegs INTERPACKET_DELAY q) eq_refl) as [Hend Hacks].
  cbn [packet] in Hend.
  replace ins with ((tok :: gap ++ [d]) ++ (wait ++ [tx]))
    by (subst ins; cbn [app]; now rewrite <- app_assoc).
  rewrite run_app, ack_trace_app, Hdelay, Hend, Hacks.
  rewrite !app_comm_cons, ack_trace_app, Hrun, Hack.
  cbn [ack_trace]. rewrite Hoff.
  repeat split.
  rewrite repeat_snoc, app_assoc, <- repeat_app.
  f_equal. f_equal. lia.
Qed.

(** X8 at the transaction of [test_fs_interpacket_delay]. *)
Lemma delayed_transaction_witness :
  let tok := Scenario.token SETUP_PID USBSpeed.FULL in
  let d := Scenario.data Scenario.reference_payload USBSpeed.FULL in
  let wait := [Scenario.quiet USBSpeed.FULL; Scenario.quiet USBSpeed.FULL] in
  let tx := Scenario.tx_allowed USBSpeed.FULL in
  let ins := tok :: [] ++ d :: wait ++ [tx] in
  ack_trace reset ins = [false; false; false; false; true] /\
  fsm (run reset ins) = IDLE /\
  fields (packet (run reset ins))
    = fields (packet (tick (mkRegs READ_DATA (deasserted (packet reset))) d)).
Proof.
  apply (delayed_transaction reset
           (Scenario.token SETUP_PID USBSpeed.FULL) []
           (Scenario.data Scenario.reference_payload USBSpeed.FULL)
           [Scenario.quiet USBSpeed.FULL; Scenario.quiet USBSpeed.FULL]
           (Scenario.tx_allowed USBSpeed.FULL));
    try reflexivity; try (repeat constructor); try discriminate.
Defined.

(** X9: a transaction with a payload of the wrong length leaves no trace.
    From [IDLE], a SETUP token, silent ticks and then a data packet whose
    length is not eight: the decoder is back in [IDLE] with exactly the
    packet record it had before the token ([received] low), and [ack] was
    never driven. *)
Theorem malformed_transaction_leaves_no_trace
  (r : regs) (tok : inputs) (gap : list inputs) (d : inputs) :
  fsm r = IDLE ->
  setup_token tok = true ->
  Forall (fun i => silent i = true) gap ->
  data_new_packet d = true ->
  data_length d <> 8 ->
  run r (tok :: gap ++ [d]) = mkRegs IDLE (deasserted (packet r)) /\
  ack_trace r (tok :: gap ++ [d])
    = repeat false (List.length gap + 2).
Proof.
  intros Hs Htok Hgap Hnew Hlen.
  apply Z.eqb_neq in Hlen.
  destruct (frame_opened r tok gap Hs Htok Hgap) as [Hrun Hack].
  assert (Hdec : decodes (mkRegs READ_DATA (deasserted (packet r))) d = false).
  { unfold decodes. cbn [fsm]. rewrite Hlen. apply andb_false_r. }
  destruct (read_data_abort_tick (mkRegs READ_DATA (deasserted (packet r)))
              d eq_refl Hdec) as [Ht Ha].
  { rewrite Hnew. apply orb_true_r. }
  cbn [packet] in Ht. rewrite deasserted_idem in Ht.
  rewrite !app_comm_cons, run_snoc, ack_trace_app, Hrun, Hack, Ht.
  cbn [ack_trace]. rewrite Ha. split; [reflexivity |].
  rewrite repeat_snoc. f_equal. lia.
Qed.

(** X9 at the transaction of [test_short_setup_packet]. *)
Lemma malformed_transaction_leaves_no_trace_witness :
  let tok := Scenario.token SETUP_PID USBSpeed.HIGH in
  let d := Scenario.data Scenario.short_payload USBSpeed.HIGH in
  run reset (tok :: [] ++ [d]) = mkRegs IDLE (deasserted (packet reset)) /\
  ack_trace reset (tok :: [] ++ [d]) = [false; false].
Proof.
  apply (malformed_transaction_leaves_no_trace reset
           (Scenario.token SETUP_PID USBSpeed.HIGH) []
           (Scenario.data Scenario.short_payload USBSpeed.HIGH));
    try reflexivity; try constructor.
  cbn. lia.
Defined.

(** X10: the token that aborts a frame is itself consumed.  From [IDLE], a
    SETUP token, silent ticks and then a second token pulse of any PID --
    SETUP included -- with no eight-byte payload on that tick: the decoder
    is back in [IDLE], not awaiting a payload, so a data packet on the next
    tick is ignored and leaves the packet record as it was. *)
Theorem aborting_token_consumed
  (r : regs) (tok : inputs) (gap : list inputs) (tok2 d : inputs) :
  fsm r = IDLE ->
  setup_token tok = true ->
  Forall (fun i => silent i = true) gap ->
  tokenizer_new_token tok2 = true ->
  data_new_packet tok2 && (data_length tok2 =? 8) = false ->
  tokenizer_new_token d = false ->
  run r (tok :: gap ++ [tok2]) = mkRegs IDLE (deasserted (packet r)) /\
  run r (tok :: gap ++ [tok2; d]) = mkRegs IDLE (deasserted (packet r)) /\
  ack_trace r (tok :: gap ++ [tok2; d])
    = repeat false (List.length gap + 3).
Proof.
  intros Hs Htok Hgap Htok2 Hnodec Hd.
  destruct (frame_opened r tok gap Hs Htok Hgap) as [Hrun Hack].
  assert (Hdec : decodes (mkRegs READ_DATA (deasserted (packet r))) tok2
                 = false) by exact Hnodec.
  destruct (read_data_abort_tick (mkRegs READ_DATA (deasserted (packet r)))
              tok2 eq_refl Hdec) as [Ht Ha].
  { now rewrite Htok2. }
  cbn [packet] in Ht. rewrite deasserted_idem in Ht.
  assert (Hidle : run r (tok :: gap ++ [tok2])
                  = mkRegs IDLE (deasserted (packet r))).
  { now rewrite !app_comm_cons, run_snoc, Hrun. }
  assert (Hd' : setup_token d = false).
  { unfold setup_token. rewrite Hd. apply andb_false_r. }
  pose proof (idle_tick (mkRegs IDLE (deasserted (packet r))) d eq_refl)
    as Hnext.
  rewrite Hd' in Hnext. cbn [packet] in Hnext.
  rewrite deasserted_idem in Hnext.
  split; [assumption | split].
  - replace (tok :: gap ++ [tok2; d])
      with ((tok :: gap ++ [tok2]) ++ [d])
      by (cbn [app]; now rewrite <- app_assoc).
    now rewrite run_snoc, Hidle.
  - replace (tok :: gap ++ [tok2; d])
      with ((tok :: gap) ++ [tok2; d]) by reflexivity.
    rewrite ack_trace_app, Hrun, Hack. cbn [ack_trace].
    rewrite Ha, Ht.
    rewrite (idle_silent (mkRegs IDLE (deasserted (packet r))) d eq_refl).
    change [false; false] with (repeat false 2).
    rewrite <- repeat_app. f_equal. lia.
Qed.

(** X10 at two SETUP tokens in a row followed by the reference payload: the
    payload is not decoded. *)
Lemma aborting_token_consumed_witness :
  let tok := Scenario.token SETUP_PID USBSpeed.HIGH in
  let d := Scenario.data Scenario.reference_payload USBSpeed.HIGH in
  run reset (tok :: [] ++ [tok]) = mkRegs IDLE (deasserted (packet reset)) /\
  run reset (tok :: [] ++ [tok; d]) = mkRegs IDLE (deasserted (packet reset)) /\
  ack_trace reset (tok :: [] ++ [tok; d]) = [false; false; false].
Proof.
  apply (aborting_token_consumed reset
           (Scenario.token SETUP_PID USBSpeed.HIGH) []
           (Scenario.token SETUP_PID USBSpeed.HIGH)
           (Scenario.data Scenario.reference_payload USBSpeed.HIGH));
    try reflexivity; constructor.
Defined.

(** ** High speed and the timer *)

Lemma timerless_step (r : regs) (i : inputs) :
  fsm r <> INTERPACKET_DELAY ->
  speed i = USBSpeed.HIGH ->
  tick r (without_timer i) = tick r i /\
  ack (outputs r (without_timer i)) = ack (outputs r i) /\
  fsm (tick r i) <> INTERPACKET_DELAY.
Proof.
  intros Hs Hspd. unfold tick, outputs, elaborate, without_timer.
  destruct r as [s p]; destruct s; cbn [fsm packet] in *;
    try contradiction; cbn [tokenizer_pid tokenizer_new_token data_new_packet
                            data_length data_packet speed];
    rewrite ?Hspd;
    destruct (tokenizer_pid i =? SETUP_PID), (tokenizer_new_token i),
             (data_new_packet i), (data_length i =? 8);
    cbn; repeat split; discriminate.
Qed.

Lemma timerless_run (r : regs) (ins : list inputs) :
  fsm r <> INTERPACKET_DELAY ->
  Forall (fun i => speed i = USBSpeed.HIGH) ins ->
  run r (map without_timer ins) = run r ins /\
  ack_trace r (map without_timer ins) = ack_trace r ins /\
  fsm (run r ins) <> INTERPACKET_DELAY.
Proof.
  intros Hs Hall. revert r Hs.
  induction Hall as [| i ins Hi _ IH]; intros r Hs.
  - repeat split; assumption.
  - destruct (timerless_step r i Hs Hi) as (Ht & Ha & Hn).
    destruct (IH (tick r i) Hn) as (IHrun & IHack & IHs).
    cbn [map ack_trace]. rewrite !run_cons, Ht, Ha, IHrun, IHack.
    repeat split. assumption.
Qed.

(** X21: at high speed the timer is never consulted.  Over an input
    sequence from reset whose ticks are all at high speed, the decoder never
    enters [INTERPACKET_DELAY], and its registers and its [ack] wire are the
    same as if [tx_allowed] had stayed low throughout. *)
Theorem high_speed_ignores_timer (ins : list inputs) :
  Forall (fun i => speed i = USBSpeed.HIGH) ins ->
  run reset (map without_timer ins) = run reset ins /\
  ack_trace reset (map without_timer ins) = ack_trace reset ins /\
  fsm (run reset ins) <> INTERPACKET_DELAY.
Proof. apply timerless_run. discriminate. Qed.

(** X21 at the high-speed reference transaction with timer pulses around
    it. *)
Lemma high_speed_ignores_timer_witness :
  let ins := [ Scenario.tx_allowed USBSpeed.HIGH;
               Scenario.token SETUP_PID USBSpeed.HIGH;
               Scenario.data Scenario.reference_payload USBSpeed.HIGH;
               Scenario.tx_allowed USBSpeed.HIGH ] in
  run reset (map without_timer ins) = run reset ins /\
  ack_trace reset (map without_timer ins) = ack_trace reset ins /\
  fsm (run reset ins) <> INTERPACKET_DELAY.
Proof.
  apply (high_speed_ignores_timer
           [ Scenario.tx_allowed USBSpeed.HIGH;
             Scenario.token SETUP_PID USBSpeed.HIGH;
             Scenario.data Scenario.reference_payload USBSpeed.HIGH;
             Scenario.tx_allowed USBSpeed.HIGH ]).
  repeat constructor.
Defined.

(** ** What [received] announces *)

(** X22: whenever [received] is high, the fields of the packet record are
    those of the data packet of the tick before: bit 7, bits 5-6 and bits
    0-4 of byte 0, byte 1 cut to 8 bits and the three byte pairs, low byte
    first, cut to 16 bits -- whatever the decoder held before. *)
Theorem received_announces_fresh_fields (pre : list inputs) (i : inputs) :
  received (packet (run reset (pre ++ [i]))) = true ->
  fields (packet (run reset (pre ++ [i])))
  = (Z.testbit (byte i 0) 7, slice 5 2 (byte i 0), slice 0 5 (byte i 0),
     trunc 8 (byte i 1),
     trunc 16 (Cat 8 (byte i 2) (byte i 3)),
     trunc 16 (Cat 8 (byte i 4) (byte i 5)),
     trunc 16 (Cat 8 (byte i 6) (byte i 7))).
Proof.
  rewrite run_snoc, received_next. apply decoded_fields.
Qed.

(** X22 at the reference transaction. *)
Lemma received_announces_fresh_fields_witness :
  fields (packet (run reset
                    ([Scenario.token SETUP_PID USBSpeed.HIGH]
                       ++ [Scenario.data Scenario.reference_payload
                             USBSpeed.HIGH])))
  = (false, 2, 2, 12, 43981, 291, 22136).
Proof.
  exact (received_announces_fresh_fields
           [Scenario.token SETUP_PID USBSpeed.HIGH]
           (Scenario.data Scenario.reference_payload USBSpeed.HIGH)
           eq_refl).
Defined.

(** ** The [received] strobe *)

Lemma received_trace_app (r : regs) (xs ys : list inputs) :
  received_trace r (xs ++ ys)
  = received_trace r xs ++ received_trace (run r xs) ys.
Proof.
  revert r. induction xs as [| x xs IH]; intros r.
  - reflexivity.
  - cbn [app received_trace]. rewrite IH. reflexivity.
Qed.

Lemma read_data_waits_received (p : SetupPacket) (gap : list inputs) :
  Forall (fun i => silent i = true) gap ->
  received_trace (mkRegs READ_DATA (deasserted p)) gap
  = repeat false (List.length gap).
Proof.
  induction 1 as [| i gap Hi _ IH].
  - reflexivity.
  - destruct (read_data_silent_tick (mkRegs READ_DATA (deasserted p)) i
                eq_refl Hi) as [Ht _].
    cbn [packet] in Ht. rewrite deasserted_idem in Ht.
    cbn [received_trace List.length repeat]. rewrite Ht, IH. reflexivity.
Qed.

Lemma frame_opened_received (r : regs) (tok : inputs) (gap : list inputs) :
  fsm r = IDLE -> setup_token tok = true ->
  Forall (fun i => silent i = true) gap ->
  received_trace r (tok :: gap) = repeat false (S (List.length gap)).
Proof.
  intros Hs Htok Hgap. cbn [received_trace repeat].
  rewrite (idle_tick r tok Hs), Htok.
  rewrite (read_data_waits_received (packet r) gap Hgap). reflexivity.
Qed.

(** C4: [received] is high after a tick exactly when that tick completed a
    decode, and never on two consecutive ticks.  A valid transaction does
    raise it, for one tick: from [IDLE], a SETUP token, silent ticks and an
    eight-byte data packet leave [received] low up to the payload, high on
    the tick after it and low again one tick later, whatever arrives then.
    A data packet whose length differs from eight never raises it, whatever
    its content: in the same transaction [received] stays low throughout. *)
Theorem received_one_tick_per_decode
  (pre gap : list inputs) (tok d i j : inputs) :
  let r := run reset pre in
  received (packet (run reset (pre ++ [i]))) = decodes r i /\
  received (packet r) && received (packet (run reset (pre ++ [i]))) = false /\
  (fsm r = IDLE ->
   setup_token tok = true ->
   Forall (fun x => silent x = true) gap ->
   data_new_packet d = true ->
   (data_length d = 8 ->
    received_trace r (tok :: gap ++ [d; j])
      = repeat false (S (List.length gap)) ++ [true; false]) /\
   (data_length d <> 8 ->
    received_trace r (tok :: gap ++ [d; j])
      = repeat false (S (List.length gap)) ++ [false; false])) /\
  (data_length i <> 8 -> received (packet (run reset (pre ++ [i]))) = false).
Proof.
  intros r. rewrite run_snoc. fold r. rewrite received_next.
  split; [reflexivity | split; [| split]].
  - destruct (decodes r i) eqn:Hdec; [| apply andb_false_r].
    rewrite andb_true_r. subst r.
    destruct pre as [| x pre _] using rev_ind; [reflexivity |].
    rewrite run_snoc in *. rewrite received_next.
    destruct (decodes (run reset pre) x) eqn:Hprev; [| reflexivity].
    apply decodes_leaves_READ_DATA in Hprev.
    apply decodes_in_READ_DATA in Hdec. contradiction.
  - intros Hs Htok Hgap Hnew.
    destruct (frame_opened r tok gap Hs Htok Hgap) as [Hrun _].
    pose proof (frame_opened_received r tok gap Hs Htok Hgap) as Hlow.
    replace (tok :: gap ++ [d; j]) with ((tok :: gap) ++ [d; j])
      by reflexivity.
    rewrite received_trace_app, Hrun, Hlow. cbn [received_trace].
    rewrite !received_next.
    set (w := mkRegs READ_DATA (deasserted (packet r))).
    split; intros Hlen.
    + pose proof (valid_payload_decodes (deasserted (packet r)) d Hnew Hlen)
        as Hdec.
      fold w in Hdec. rewrite Hdec.
      pose proof (decodes_leaves_READ_DATA w d Hdec) as Hleft.
      assert (Hnot : decodes (tick w d) j = false).
      { unfold decodes. destruct (fsm (tick w d));
          [reflexivity | contradiction | reflexivity]. }
      rewrite Hnot. reflexivity.
    + apply Z.eqb_neq in Hlen.
      assert (Hdec : decodes w d = false).
      { unfold decodes, w. cbn [fsm]. rewrite Hlen. apply andb_false_r. }
      rewrite Hdec.
      destruct (read_data_abort_tick w d eq_refl Hdec) as [Ht _].
      { rewrite Hnew. apply orb_true_r. }
      rewrite Ht. reflexivity.
  - intros Hlen. apply Z.eqb_neq in Hlen. unfold decodes.
    rewrite Hlen, andb_false_r. destruct (fsm r); reflexivity.
Qed.

(** C4 at the reference transaction, where [received] is high for one tick,
    and at the short payload of [test_short_setup_packet], where it stays
    low. *)
Lemma received_one_tick_per_decode_witness :
  let tok := Scenario.token SETUP_PID USBSpeed.HIGH in
  let gap := [Scenario.quiet USBSpeed.HIGH] in
  let good := Scenario.data Scenario.reference_payload USBSpeed.HIGH in
  let short := Scenario.data Scenario.short_payload USBSpeed.HIGH in
  received_trace reset (tok :: gap ++ [good; good])
    = [false; false; true; false] /\
  received_trace reset (tok :: gap ++ [short; good])
    = [false; false; false; false] /\
  received (packet (run reset ([tok] ++ [short]))) = false.
Proof.
  intros tok gap good short.
  assert (Hgap : Forall (fun x => silent x = true) gap)
    by (repeat constructor).
  assert (Hshort : data_length short <> 8) by (cbn; lia).
  destruct (received_one_tick_per_decode [] gap tok good short good)
    as (_ & _ & Hgood & _).
  destruct (received_one_tick_per_decode [tok] gap tok short short good)
    as (_ & _ & _ & Hwrong).
  destruct (received_one_tick_per_decode [] gap tok short short good)
    as (_ & _ & Hbad & _).
  exact (conj (proj1 (Hgood eq_refl eq_refl Hgap eq_refl) eq_refl)
           (conj (proj2 (Hbad eq_refl eq_refl Hgap eq_refl) Hshort)
                 (Hwrong Hshort))).
Defined.

End SetupDecoderTraceFacts.

(** * Whole transactions at the request handler *)

Module StandardRequestHandlerTraceFacts.
Import StandardRequestHandler StandardRequestHandlerTraces.

Lemma handler_run_snoc (s : fsm_state) (xs : list inputs) (i : inputs) :
  run s (xs ++ [i]) = tick (run s xs) i.
Proof. unfold run. now rewrite fold_left_app. Qed.

Lemma unhandled_entered (s : fsm_state) (i : inputs) :
  tick s i = UNHANDLED ->
  (s = IDLE /\ setup_received i = true)
  \/ (s = UNHANDLED /\ no_strobe i).
Proof.
  unfold tick, elaborate, no_strobe.
  destruct s, (setup_received i), (data_requested i), (status_requested i);
    cbn; intros H; try discriminate; auto.
Qed.

Lemma stall_cases (s : fsm_state) (i : inputs) :
  stall (elaborate s i)
  = match s with IDLE => false | UNHANDLED => strobe i end.
Proof.
  unfold elaborate, strobe.
  destruct s, (setup_received i), (data_requested i), (status_requested i);
    reflexivity.
Qed.

Lemma unhandled_history (pre : list inputs) :
  run reset pre = UNHANDLED ->
  exists before s wait,
    pre = before ++ s :: wait /\
    run reset before = IDLE /\
    setup_received s = true /\
    Forall no_strobe wait.
Proof.
  induction pre as [| x pre IH] using rev_ind.
  - discriminate.
  - rewrite handler_run_snoc. intros Hs.
    destruct (unhandled_entered _ _ Hs) as [[Hidle Hrecv] | [Hprev Hq]].
    + exists pre, x, []. repeat split; auto.
    + destruct (IH Hprev) as (before & s & wait & -> & Hb & Hrecv & Hwait).
      exists before, s, (wait ++ [x]). repeat split; auto.
      * now rewrite <- app_assoc.
      * apply Forall_app. split; [assumption | now constructor].
Qed.

(** X11: [stall] is driven only for a pending request.  If [stall] is high
    on a tick, a phase strobe is high on that tick and the input sequence so
    far ends with a [setup.received] pulse taken in [IDLE] followed only by
    ticks without a phase strobe. *)
Theorem stall_answers_a_request (pre : list inputs) (i : inputs) :
  stall (elaborate (run reset pre) i) = true ->
  strobe i = true /\
  exists before s wait,
    pre = before ++ s :: wait /\
    run reset before = IDLE /\
    setup_received s = true /\
    Forall no_strobe wait.
Proof.
  rewrite stall_cases. destruct (run reset pre) eqn:Hs; [discriminate |].
  intros Hstrobe. split; [assumption | now apply unhandled_history].
Qed.

(** X11 at a request stalled by its status phase. *)
Lemma stall_answers_a_request_witness :
  let pre := [mkInputs true false false; mkInputs false false false] in
  let i := mkInputs false false true in
  strobe i = true /\
  exists before s wait,
    pre = before ++ s :: wait /\
    run reset before = IDLE /\
    setup_received s = true /\
    Forall no_strobe wait.
Proof.
  apply (stall_answers_a_request
           [mkInputs true false false; mkInputs false false false]
           (mkInputs false false true)).
  reflexivity.
Defined.

Lemma stalls_step (s : fsm_state) (i : inputs) :
  ((if stall (elaborate s i) then 1 else 0) + stall_owed (tick s i)
   <= stall_owed s + (if setup_received i then 1 else 0))%nat.
Proof.
  unfold stall_owed, tick, elaborate.
  destruct s, (setup_received i), (data_requested i), (status_requested i);
    cbn; lia.
Qed.

Lemma stalls_run (s : fsm_state) (ins : list inputs) :
  (count_stalls s ins + stall_owed (run s ins)
   <= stall_owed s + count_received ins)%nat.
Proof.
  revert s. induction ins as [| i ins IH]; intros s.
  - cbn. lia.
  - pose proof (stalls_step s i) as Hstep.
    pose proof (IH (tick s i)) as Hrest.
    unfold count_stalls, count_received in *.
    cbn [stall_trace filter].
    change (run s (i :: ins)) with (run (tick s i) ins).
    destruct (stall (elaborate s i)), (setup_received i);
      cbn [List.length] in *; lia.
Qed.

(** X12: over every input sequence from reset, the handler never drives more
    stalls than it has seen [setup.received] pulses; a request still waiting
    for its stall counts as one of them. *)
Theorem stalls_bounded_by_requests (ins : list inputs) :
  (count_stalls reset ins + stall_owed (run reset ins)
   <= count_received ins)%nat.
Proof. exact (stalls_run reset ins). Qed.

(** X13: [stall] is a pulse of one tick: on the tick after it the handler is
    in [IDLE] and [stall] is low, even if the phase strobes stay high. *)
Theorem stall_single_tick (s : fsm_state) (i j : inputs) :
  stall (elaborate s i) = true ->
  tick s i = IDLE /\ stall (elaborate (tick s i) j) = false.
Proof.
  rewrite stall_cases. destruct s; [discriminate |].
  unfold strobe. intros Hstrobe.
  assert (Hidle : tick UNHANDLED i = IDLE).
  { unfold tick, elaborate. rewrite Hstrobe. reflexivity. }
  rewrite Hidle, stall_cases. split; reflexivity.
Qed.

(** X13 at a data strobe held for two ticks. *)
Lemma stall_single_tick_witness :
  let i := mkInputs false true false in
  tick UNHANDLED i = IDLE /\ stall (elaborate (tick UNHANDLED i) i) = false.
Proof.
  apply (stall_single_tick UNHANDLED (mkInputs false true false)
           (mkInputs false true false)).
  reflexivity.
Defined.

End StandardRequestHandlerTraceFacts.

(** * Properties of the test bench helpers *)

Module TestUtilsFacts.
Import String TestUtils.

(** ** [wait_until] *)

(** What the loop does, for every way it can end within its fuel. *)
Lemma wait_until_loop_spec (strobe : nat -> bool) (timeout : option Z) :
  forall fuel c,
    match wait_until_loop strobe timeout c fuel with
    | Returned k =>
        (c <= k < c + fuel)%nat /\ strobe k = true /\
        (forall j, (c <= j < k)%nat -> strobe j = false) /\
        (forall j, (c < j <= k)%nat -> expired timeout j = false)
    | RuntimeError k =>
        (c < k <= c + fuel)%nat /\ expired timeout k = true /\
        (forall j, (c <= j < k)%nat -> strobe j = false) /\
        (forall j, (c < j < k)%nat -> expired timeout j = false)
    | Waiting =>
        (forall j, (c <= j < c + fuel)%nat -> strobe j = false) /\
        (forall j, (c < j <= c + fuel)%nat -> expired timeout j = false)
    end.
Proof.
  induction fuel as [| fuel IH]; intros c; cbn [wait_until_loop].
  - split; intros j Hj; lia.
  - destruct (strobe c) eqn:Hc.
    + repeat split; try lia; try assumption; intros j Hj; lia.
    + destruct (expired timeout (S c)) eqn:He.
      * repeat split; try lia; try assumption; intros j Hj.
        assert (j = c) by lia. now subst.
      * specialize (IH (S c)).
        assert (Hlow : forall j k, (c <= j < k)%nat ->
                  (forall j', (S c <= j' < k)%nat -> strobe j' = false) ->
                  strobe j = false).
        { intros j k Hj Hrest. destruct (Nat.eq_dec j c) as [-> | Hne];
            [assumption | apply Hrest; lia]. }
        assert (Hexp : forall j k, (c < j)%nat ->
                  (forall j', (S c < j')%nat -> (j' <= k)%nat ->
                              expired timeout j' = false) ->
                  (j <= k)%nat -> expired timeout j = false).
        { intros j k Hj Hrest Hk. destruct (Nat.eq_dec j (S c)) as [-> | Hne];
            [assumption | apply Hrest; lia]. }
        destruct (wait_until_loop strobe timeout (S c) fuel) as [k | k |].
        -- destruct IH as (Hk & Hs & Hl & Hx). repeat split; try lia; auto.
           ++ intros j Hj. apply (Hlow j k Hj Hl).
           ++ intros j Hj. apply (Hexp j k); try lia.
              intros j' H1 H2. apply Hx. lia.
        -- destruct IH as (Hk & Hs & Hl & Hx). repeat split; try lia; auto.
           ++ intros j Hj. apply (Hlow j k Hj Hl).
           ++ intros j Hj. apply (Hexp j (k - 1)%nat); try lia.
              intros j' H1 H2. apply Hx. lia.
        -- destruct IH as (Hl & Hx). split.
           ++ intros j Hj. apply (Hlow j (S c + fuel)%nat); [lia |].
              intros j' Hj'. apply Hl. lia.
           ++ intros j Hj. apply (Hexp j (S c + fuel)%nat); try lia.
              intros j' H1 H2. apply Hx. lia.
Qed.

Lemma expired_le (t : Z) (k : nat) :
  Z.of_nat k <= t -> expired (Some t) k = false.
Proof.
  intros Hk. unfold expired.
  destruct (Z.gtb_spec (Z.of_nat k) t); [lia | apply andb_false_r].
Qed.

Lemma expired_gt (t : Z) (k : nat) :
  t <> 0 -> t < Z.of_nat k -> expired (Some t) k = true.
Proof.
  intros Ht Hk. unfold expired.
  apply Z.eqb_neq in Ht. rewrite Ht.
  destruct (Z.gtb_spec (Z.of_nat k) t); [reflexivity | lia].
Qed.

(** X14: [wait_until] returns as soon as the strobe is high.  If the strobe
    is first high after [k] clock cycles, and there is no timeout, or the
    timeout is 0, or [k] does not exceed it, the call returns having let
    exactly [k] cycles pass -- none at all when the strobe is high at the
    call. *)
Theorem wait_until_returns
  (strobe : nat -> bool) (timeout : option Z) (k fuel : nat) :
  strobe k = true ->
  low_before strobe k ->
  match timeout with
  | None => True
  | Some t => t = 0 \/ Z.of_nat k <= t
  end ->
  (k < fuel)%nat ->
  wait_until strobe timeout fuel = Returned k.
Proof.
  intros Hk Hlow Ht Hfuel.
  assert (Hexp : forall j, (j <= k)%nat -> expired timeout j = false).
  { intros j Hj. destruct timeout as [t |]; [| reflexivity].
    destruct Ht as [-> | Ht]; [reflexivity | apply expired_le; lia]. }
  unfold wait_until.
  pose proof (wait_until_loop_spec strobe timeout fuel 0) as Hspec.
  destruct (wait_until_loop strobe timeout 0 fuel) as [k' | k' |].
  - destruct Hspec as (_ & Hs & Hl & _). f_equal.
    destruct (Nat.lt_trichotomy k' k) as [Hlt | [Heq | Hgt]].
    + rewrite (Hlow k' Hlt) in Hs. discriminate.
    + assumption.
    + rewrite (Hl k) in Hk by lia. discriminate.
  - destruct Hspec as (Hr & He & Hl & _).
    destruct (Nat.le_gt_cases k' k) as [Hle | Hgt].
    + rewrite (Hexp k' Hle) in He. discriminate.
    + rewrite (Hl k) in Hk by lia. discriminate.
  - destruct Hspec as (Hl & _). rewrite (Hl k) in Hk by lia. discriminate.
Qed.

(** X14 at a strobe that rises after three cycles, timeout 5. *)
Lemma wait_until_returns_witness :
  wait_until (fun n => Nat.eqb n 3) (Some 5) 10 = Returned 3.
Proof.
  apply (wait_until_returns (fun n => Nat.eqb n 3) (Some 5) 3 10).
  - reflexivity.
  - intros j Hj. apply Nat.eqb_neq. lia.
  - right. cbn. lia.
  - lia.
Defined.

(** X15: [wait_until] raises one cycle late.  With a timeout [t] other than
    0, a strobe that is low at the call and after each of the first [t]
    cycles makes the call raise [RuntimeError] after [t + 1] cycles (after
    one cycle when [t] is negative). *)
Theorem wait_until_raises
  (strobe : nat -> bool) (t : Z) (fuel : nat) :
  t <> 0 ->
  low_before strobe (S (Z.to_nat t)) ->
  (Z.to_nat t < fuel)%nat ->
  wait_until strobe (Some t) fuel = RuntimeError (S (Z.to_nat t)).
Proof.
  intros Ht Hlow Hfuel. unfold wait_until.
  pose proof (wait_until_loop_spec strobe (Some t) fuel 0) as Hspec.
  destruct (wait_until_loop strobe (Some t) 0 fuel) as [k | k |].
  - destruct Hspec as (Hr & Hs & _ & Hx).
    destruct (Nat.le_gt_cases k (Z.to_nat t)) as [Hle | Hgt].
    + rewrite Hlow in Hs by lia. discriminate.
    + specialize (Hx k ltac:(lia)).
      rewrite expired_gt in Hx by lia. discriminate.
  - destruct Hspec as (Hr & He & _ & Hx). f_equal.
    destruct (Nat.lt_trichotomy k (S (Z.to_nat t))) as [Hlt | [Heq | Hgt]].
    + rewrite expired_le in He by lia. discriminate.
    + assumption.
    + specialize (Hx (S (Z.to_nat t))).
      rewrite expired_gt in Hx by lia. specialize (Hx ltac:(lia)).
      discriminate.
  - destruct Hspec as (_ & Hx). specialize (Hx (S (Z.to_nat t))).
    rewrite expired_gt in Hx by lia. specialize (Hx ltac:(lia)).
    discriminate.
Qed.

(** X15 at a strobe that never rises, timeout 3: four cycles pass. *)
Lemma wait_until_raises_witness :
  wait_until (fun _ => false) (Some 3) 10 = RuntimeError 4.
Proof.
  apply (wait_until_raises (fun _ => false) 3 10).
  - discriminate.
  - intros j Hj. reflexivity.
  - cbn. lia.
Defined.

(** X16: without a timeout -- [None], or 0, which counts as none -- a strobe
    that never rises keeps [wait_until] in its loop: however many iterations
    are followed, it has neither returned nor raised. *)
Theorem wait_until_never_ends
  (strobe : nat -> bool) (timeout : option Z) (fuel : nat) :
  (forall k, strobe k = false) ->
  timeout = None \/ timeout = Some 0 ->
  wait_until strobe timeout fuel = Waiting.
Proof.
  intros Hlow Ht. unfold wait_until.
  pose proof (wait_until_loop_spec strobe timeout fuel 0) as Hspec.
  destruct (wait_until_loop strobe timeout 0 fuel) as [k | k |].
  - destruct Hspec as (_ & Hs & _). rewrite Hlow in Hs. discriminate.
  - destruct Hspec as (_ & He & _).
    destruct Ht as [-> | ->]; discriminate.
  - reflexivity.
Qed.

(** X16 at timeout 0. *)
Lemma wait_until_never_ends_witness :
  wait_until (fun _ => false) (Some 0) 1000 = Waiting.
Proof.
  apply (wait_until_never_ends (fun _ => false) (Some 0) 1000).
  - reflexivity.
  - right. reflexivity.
Defined.

(** X17: a timeout bounds the wait.  With a timeout [t] other than 0 the
    call ends within [t + 1] cycles whatever the strobe does: either it
    returns after [k] cycles, [k] no more than [t], the strobe then being
    high for the first time, or it raises after [t + 1] cycles ([1] when [t]
    is negative). *)
Theorem wait_until_bounded
  (strobe : nat -> bool) (t : Z) (fuel : nat) :
  t <> 0 ->
  (Z.to_nat t < fuel)%nat ->
  (exists k, wait_until strobe (Some t) fuel = Returned k /\
             Z.of_nat k <= Z.max t 0 /\
             strobe k = true /\ low_before strobe k)
  \/ wait_until strobe (Some t) fuel = RuntimeError (S (Z.to_nat t)).
Proof.
  intros Ht Hfuel. unfold wait_until.
  pose proof (wait_until_loop_spec strobe (Some t) fuel 0) as Hspec.
  destruct (wait_until_loop strobe (Some t) 0 fuel) as [k | k |].
  - left. exists k. destruct Hspec as (_ & Hs & Hl & Hx).
    repeat split; try assumption.
    + destruct k as [| k]; [lia |].
      specialize (Hx (S k) ltac:(lia)).
      destruct (Z.le_gt_cases (Z.of_nat (S k)) t) as [Hle | Hgt]; [lia |].
      rewrite expired_gt in Hx by lia. discriminate.
    + intros j Hj. apply Hl. lia.
  - right. f_equal. destruct Hspec as (Hr & He & _ & Hx).
    destruct (Nat.lt_trichotomy k (S (Z.to_nat t))) as [Hlt | [Heq | Hgt]].
    + rewrite expired_le in He by lia. discriminate.
    + assumption.
    + specialize (Hx (S (Z.to_nat t))).
      rewrite expired_gt in Hx by lia. specialize (Hx ltac:(lia)).
      discriminate.
  - destruct Hspec as (_ & Hx). specialize (Hx (S (Z.to_nat t))).
    rewrite expired_gt in Hx by lia. specialize (Hx ltac:(lia)).
    discriminate.
Qed.

(** X17 at a strobe that rises after two cycles, timeout 4. *)
Lemma wait_until_bounded_witness :
  (exists k, wait_until (fun n => Nat.eqb n 2) (Some 4) 8 = Returned k /\
             Z.of_nat k <= Z.max 4 0 /\
             Nat.eqb k 2 = true /\ low_before (fun n => Nat.eqb n 2) k)
  \/ wait_until (fun n => Nat.eqb n 2) (Some 4) 8
     = RuntimeError (S (Z.to_nat 4)).
Proof.
  apply (wait_until_bounded (fun n => Nat.eqb n 2) 4 8).
  - discriminate.
  - cbn. lia.
Defined.

(** ** [pulse] and [advance_cycles] *)

Lemma assign_same (signal : string) (v : Z) (st : signals) :
  assign signal v st signal = v.
Proof. unfold assign. now rewrite String.eqb_refl. Qed.

Lemma assign_other (signal other : string) (v : Z) (st : signals) :
  other <> signal -> assign signal v st other = st other.
Proof.
  intros Hne. unfold assign.
  destruct (String.eqb_spec signal other) as [-> | _]; [contradiction |].
  reflexivity.
Qed.

(** X18: [pulse] holds its signal at 1 over exactly one clock edge, whatever
    the signal was before, and leaves it at 0; with [step_after] one more
    edge passes with the signal at 0.  No other signal changes. *)
Theorem pulse_one_cycle
  (signal other : string) (step_after : bool) (st : signals) :
  other <> signal ->
  map (fun s : signals => s signal) (at_edges (pulse signal step_after) st)
    = 1 :: (if step_after then [0] else []) /\
  after (pulse signal step_after) st signal = 0 /\
  map (fun s : signals => s other) (at_edges (pulse signal step_after) st)
    = repeat (st other) (if step_after then 2 else 1)%nat /\
  after (pulse signal step_after) st other = st other.
Proof.
  intros Hne. unfold pulse.
  destruct step_after; cbn [app at_edges after map repeat];
    rewrite ?assign_same, ?(assign_other signal other) by assumption;
    repeat split; reflexivity.
Qed.

(** X18 at a strobe that is already high when it is pulsed. *)
Lemma pulse_one_cycle_witness :
  let st : signals := fun _ => 1 in
  map (fun s : signals => s "new_token"%string)
      (at_edges (pulse "new_token" true) st) = [1; 0] /\
  after (pulse "new_token" true) st "new_token"%string = 0 /\
  map (fun s : signals => s "pid"%string)
      (at_edges (pulse "new_token" true) st) = [1; 1] /\
  after (pulse "new_token" true) st "pid"%string = 1.
Proof.
  apply (pulse_one_cycle "new_token" "pid" true (fun _ => 1)).
  discriminate.
Defined.

Lemma at_edges_app (p q : list command) (st : signals) :
  at_edges (p ++ q) st = at_edges p st ++ at_edges q (after p st).
Proof.
  revert st. induction p as [| [signal v |] p IH]; intros st; cbn.
  - reflexivity.
  - apply IH.
  - now rewrite IH.
Qed.

Lemma ticks_only (n : nat) (st : signals) :
  at_edges (repeat Tick n) st = repeat st n /\ after (repeat Tick n) st = st.
Proof.
  induction n as [| n [IHe IHa]]; cbn; [split; reflexivity |].
  rewrite IHe, IHa. split; reflexivity.
Qed.

(** X19: [advance_cycles] waits for exactly [cycles] clock edges -- none for
    a count of zero or less -- and changes no signal; two waits in a row are
    one wait for the sum when neither count is negative. *)
Theorem advance_cycles_waits (a b : Z) (st : signals) :
  at_edges (advance_cycles a) st = repeat st (Z.to_nat (Z.max 0 a)) /\
  after (advance_cycles a) st = st /\
  (0 <= a -> 0 <= b ->
   advance_cycles a ++ advance_cycles b = advance_cycles (a + b)).
Proof.
  unfold advance_cycles.
  destruct (ticks_only (Z.to_nat a) st) as [He Ha].
  rewrite He, Ha. repeat split.
  - f_equal. lia.
  - intros H0a H0b. rewrite <- repeat_app. f_equal. lia.
Qed.

(** X19 at the ten cycles [test_fs_interpacket_delay] waits, in two
    parts. *)
Lemma advance_cycles_waits_witness :
  advance_cycles 4 ++ advance_cycles 6 = advance_cycles (4 + 6).
Proof.
  apply (advance_cycles_waits 4 6 (fun _ => 0)); lia.
Defined.

(** ** VCD file names *)

Lemma append_inj_l (a x y : string) :
  (a ++ x)%string = (a ++ y)%string -> x = y.
Proof.
  induction a as [| c a IH]; cbn; intros H; [assumption |].
  injection H as H. now apply IH.
Qed.

Lemma length_append (x y : string) :
  String.length (x ++ y) = (String.length x + String.length y)%nat.
Proof. induction x as [| c x IH]; cbn; [reflexivity | now rewrite IH]. Qed.

Lemma append_inj_r (x y c : string) :
  (x ++ c)%string = (y ++ c)%string -> x = y.
Proof.
  revert y. induction x as [| a x IH]; intros [| b y] H; cbn in H.
  - reflexivity.
  - apply (f_equal String.length) in H. cbn in H.
    rewrite length_append in H. lia.
  - apply (f_equal String.length) in H. cbn in H.
    rewrite length_append in H. lia.
  - injection H as -> H. f_equal. now apply IH.
Qed.

Lemma append_empty_r (x : string) : (x ++ "")%string = x.
Proof. induction x as [| c x IH]; cbn; [reflexivity | now rewrite IH]. Qed.

Lemma append_self (x y : string) : x = (x ++ y)%string -> y = EmptyString.
Proof.
  intros H. apply (append_inj_l x). now rewrite append_empty_r.
Qed.

(** X20: when VCDs are generated -- [GENERATE_VCDS] set to any non-empty
    string -- two [simulate] calls of the same test class name the same
    files exactly when their suffixes have the same text, an absent suffix
    and the empty string both counting as none.  So test functions of one
    class, which pass their distinct names, never overwrite each other's
    traces, while [simulate()] and [simulate(vcd_suffix='')] share files. *)
Theorem vcd_suffix_separates_files
  (GENERATE_VCDS class_name : string) (suffix1 suffix2 : option string) :
  GENERATE_VCDS <> EmptyString ->
  simulate (Some GENERATE_VCDS) class_name suffix1
    = simulate (Some GENERATE_VCDS) class_name suffix2
  <-> suffix_text suffix1 = suffix_text suffix2.
Proof.
  intros Henv.
  destruct GENERATE_VCDS as [| e env]; [contradiction |].
  assert (Hname : forall sfx,
            simulate (Some (String e env)) class_name sfx
            = simulate (Some (String e env)) class_name
                       (Some (suffix_text sfx))).
  { intros [[| c s] |]; reflexivity. }
  rewrite (Hname suffix1), (Hname suffix2).
  split; [| now intros ->].
  unfold simulate. cbn [is_true_opt nonempty].
  destruct (suffix_text suffix1) as [| c1 s1],
           (suffix_text suffix2) as [| c2 s2]; cbn [nonempty];
    intros H; [reflexivity | | |];
    injection H as H _; apply append_inj_r in H.
  - apply append_self in H. discriminate.
  - symmetry in H. apply append_self in H. discriminate.
  - apply append_inj_l in H. injection H as -> ->. reflexivity.
Qed.

(** X20 with the variable set to the string 0: no suffix and the empty
    suffix name the same files, no suffix and a test's name do not. *)
Lemma vcd_suffix_separates_files_witness :
  simulate (Some "0"%string) "USBSetupDecoderTest" None
    = simulate (Some "0"%string) "USBSetupDecoderTest" (Some ""%string) /\
  simulate (Some "0"%string) "USBSetupDecoderTest" None
    <> simulate (Some "0"%string) "USBSetupDecoderTest"
         (Some "test_short_setup_packet"%string).
Proof.
  assert (Henv : "0"%string <> EmptyString) by discriminate.
  split.
  - apply (vcd_suffix_separates_files "0" "USBSetupDecoderTest"
             None (Some ""%string) Henv).
    reflexivity.
  - intros Hsame.
    apply (vcd_suffix_separates_files "0" "USBSetupDecoderTest"
             None (Some "test_short_setup_packet"%string) Henv) in Hsame.
    discriminate.
Defined.

End TestUtilsFacts.
